(** * dingo / volestipy: the Cython wrapper around the volesti core

    A shallow embedding of [src/dingo/volestipy.pyx].  The wrapper owns no
    numerical code: it allocates numpy arrays, asks an inner-ball supplier
    for a start point, validates method strings and calls the native
    [HPolytopeCPP] object declared in [bindings.h].  The embedding therefore
    models

    - numpy buffers as cells of a heap, memoryviews as (address, shape)
      pairs, so that aliasing between the stored [(A, b)] and the arrays the
      native code writes into is visible;
    - the native object and the inner-ball suppliers as interfaces (type
      classes), every call to them being recorded in a trace;
    - C [double] values as IEEE binary64 floats; Python ints as [Z], with
      the [OverflowError] of their conversion to a C [int], [unsigned int]
      or [npy_int32] slot at the place where Cython converts them;
    - Python exceptions as an outcome, and the unbounded [while True] loop
      of the MMCS drivers by a fuel parameter with its own outcome.

    Arguments are of the Python type their use shows ([int], [float],
    [str], [bool]); memory is unbounded (no [MemoryError]). *)

From Stdlib Require Import ZArith String Ascii Floats Lia Bool.
From Stdlib Require Import Strings.Byte.
From stdpp Require Import base list.

Local Open Scope Z_scope.

(** ** Python values *)

(** A [bytes] object. *)
Definition bytes := list byte.

(** [s.encode("UTF-8")]: a [str] is represented by its UTF-8 text, and
    Rocq strings are byte strings. *)
Definition encode (s : string) : bytes := list_byte_of_string s.

#[global] Instance byte_eq_dec : EqDecision byte.
Proof.
  intros x y. destruct (Byte.eqb x y) eqn:E.
  - left. now apply Byte.byte_dec_bl.
  - right. intros H. apply Byte.byte_dec_lb in H. congruence.
Defined.

#[global] Instance string_eq_dec : EqDecision string := String.string_dec.

(** [x in l] on a Python list. *)
Definition py_in (x : bytes) (l : list bytes) : bool := bool_decide (x ∈ l).

Definition dquote : string := String (ascii_of_nat 34) EmptyString.

(** Exceptions the wrapper can raise.  [Exception_format] keeps the
    template and the two arguments of [str.format] apart. *)
Inductive exn : Type :=
  | Exception_format (template : string) (arg0 : bytes) (arg1 : list bytes)
  | RuntimeError (msg : string)
  | ValueError (msg : string)
  | NameError (name : string)
  | OverflowError            (* the text depends on the size of the int *)
  | Cpp_exception (what : string).   (* a C++ exception, through [except +] *)

(** ** Buffers, memoryviews and the world *)

Definition buffer := list float.

(** [double[:,::1]]: a C-contiguous two-dimensional view. *)
Record memview2 : Type := { base2 : nat; shape2 : nat * nat }.

(** [double[::1]]. *)
Record memview1 : Type := { base1 : nat; shape1 : nat }.

(** A 0-d [ndarray]. *)
Record scalar_array : Type := { base0 : nat }.

(** What a Python callee reads off an array argument. *)
Record ndarray2 : Type := { nd2_shape : nat * nat; nd2_data : buffer }.
Record ndarray1 : Type := { nd1_shape : nat; nd1_data : buffer }.

(** Calls that leave the wrapper, with their arguments (and, where a later
    step depends on them, their results). *)
Inductive event : Type :=
  | Call_time
  | Call_inner_ball (fast : bool) (A : ndarray2) (b : ndarray1)
                    (center : buffer) (radius : float)
  | Call_HPolytopeCPP (A b : buffer) (n_hyperplanes n_variables : Z)
  | Call_compute_volume (vol_method walk_method : bytes) (walk_len : Z)
                        (epsilon : float) (seed : Z)
  | Call_apply_sampling (walk_len number_of_points number_of_points_to_burn
                         method : Z) (inner_point : buffer) (radius : float)
  | Call_mmcs_initialize (d ess psrf_check parallelism num_threads : Z)
  | Call_mmcs_step (inner_point : buffer) (radius : float)
                   (check : float) (N : Z)
  | Call_get_mmcs_samples
  | Call_get_polytope_as_matrices (new_A new_b : buffer)  (* as filled *)
  | Call_apply_rounding (rounding_method : Z) (inner_point : buffer)
                        (radius : float).

Record world : Type := {
  heap : list buffer;      (* numpy data buffers, by address *)
  wall_clock : Z;          (* what [int(time.time())] yields now *)
  trace : list event       (* external calls so far, oldest first *)
}.

Inductive outcome (X : Type) : Type :=
  | Return (x : X)
  | Raise (e : exn)
  | OutOfFuel.
Arguments Return {X} x.
Arguments Raise {X} e.
Arguments OutOfFuel {X}.

(** ** External collaborators *)

(** The native object, [cdef cppclass HPolytopeCPP] of [bindings.h].  Its
    constructor is declared [except +]: it answers an object, or the
    Python exception its C++ exception is turned into.  Its
    methods are not [const]: each returns the object as the call leaves it.
    A [double*] input is passed as the doubles found there; a [double*]
    output as the doubles found there before the call, answered by the
    doubles the call leaves there.  Reference parameters ([int &N],
    [double &round_value]) are answered by the value stored. *)
Class HPolytopeCPP_class : Type := {
  HPolytopeCPP : Type;
  cpp_new : buffer -> buffer -> Z -> Z -> exn + HPolytopeCPP;
  cpp_compute_volume :
    HPolytopeCPP -> bytes -> bytes -> Z -> float -> Z -> float * HPolytopeCPP;
  cpp_apply_sampling :
    HPolytopeCPP -> Z -> Z -> Z -> Z -> buffer -> float -> buffer ->
    float * buffer * HPolytopeCPP;
  cpp_mmcs_initialize :
    HPolytopeCPP -> Z -> Z -> Z -> Z -> Z -> HPolytopeCPP;
  cpp_mmcs_step :
    HPolytopeCPP -> buffer -> float -> float * Z * HPolytopeCPP;
  cpp_get_mmcs_samples :
    HPolytopeCPP -> buffer -> buffer -> buffer ->
    buffer * buffer * buffer * HPolytopeCPP;
  cpp_get_polytope_as_matrices :
    HPolytopeCPP -> buffer -> buffer -> buffer * buffer * HPolytopeCPP;
  cpp_apply_rounding :
    HPolytopeCPP -> Z -> buffer -> buffer -> buffer -> buffer -> buffer ->
    float -> buffer * buffer * buffer * buffer * float * HPolytopeCPP
}.

(** [inner_ball(A, b) -> (center, radius)]: a vector of doubles and a
    float.  What a supplier allocates for its answer is its own. *)
Definition inner_ball_fn : Type := ndarray2 -> ndarray1 -> buffer * float.

(** The two suppliers the module imports.  [slow_inner_ball] is imported
    unconditionally; [fast_inner_ball] only when [gurobipy] is importable
    (the [ImportError] is swallowed, leaving the name unbound). *)
Class InnerBall : Type := {
  slow_inner_ball_impl : inner_ball_fn;
  fast_inner_ball_impl : option inner_ball_fn
}.

(** ** C integer slots *)

(** What fits a C [int] (and [npy_int32]), and a C [unsigned int]. *)
Definition c_int_fits (z : Z) : bool :=
  (-2147483648 <=? z) && (z <=? 2147483647).

Definition c_uint_fits (z : Z) : bool :=
  (0 <=? z) && (z <=? 4294967295).

(** ** Module level *)

(** [get_time_seed()]: [int(time.time())]. *)
Definition get_time_seed (w : world) : Z * world :=
  (wall_clock w,
   {| heap := heap w; wall_clock := wall_clock w;
      trace := trace w ++ [Call_time] |}).

Definition volume_methods : list bytes :=
  [encode "sequence_of_balls"; encode "cooling_gaussian";
   encode "cooling_balls"].

Definition walk_methods : list bytes :=
  [encode "uniform_ball"; encode "CDHR"; encode "RDHR";
   encode "gaussian_ball"; encode "gaussian_CDHR"; encode "gaussian_RDHR";
   encode "uniform_ball"; encode "billiard"].

Definition rounding_methods : list bytes :=
  [encode "min_ellipsoid"; encode "svd"; encode "max_ellipsoid"].

(** What executing the module body leaves behind, beyond the constants
    above: the default of [compute_volume]'s [seed] parameter, whose
    expression [get_time_seed()] stands in the [def] line and is evaluated,
    and converted to [npy_int32], when that line is executed. *)
Record module_state : Type := { compute_volume_seed_default : Z }.

Definition import_module (w : world) : outcome module_state * world :=
  let '(seed, w') := get_time_seed w in
  if c_int_fits seed then
    (Return {| compute_volume_seed_default := seed |}, w')
  else (Raise OverflowError, w').

(** ** The wrapper *)

Section Wrapper.
Context {cpp_class : HPolytopeCPP_class} {inner_ball : InnerBall}.

(** [cdef class HPolytope]. *)
Record HPolytope : Type := {
  polytope_cpp : HPolytopeCPP;
  _A : memview2;
  _b : memview1
}.

(** A method runs on the object it is called on and the process around
    it. *)
Record state : Type := { self : HPolytope; env : world }.

Definition M (X : Type) : Type := state -> outcome X * state.

Definition ret {X} (x : X) : M X := fun s => (Return x, s).
Definition raise {X} (e : exn) : M X := fun s => (Raise e, s).
Definition out_of_fuel {X} : M X := fun s => (OutOfFuel, s).
Definition bind {X Y} (m : M X) (k : X -> M Y) : M Y :=
  fun s => match m s with
           | (Return x, s') => k x s'
           | (Raise e, s') => (Raise e, s')
           | (OutOfFuel, s') => (OutOfFuel, s')
           end.

#[global] Instance M_ret : MRet M := @ret.
#[global] Instance M_bind : MBind M := fun X Y k m => bind m k.

Definition set_heap (h : list buffer) (s : state) : state :=
  {| self := self s;
     env := {| heap := h; wall_clock := wall_clock (env s);
               trace := trace (env s) |} |}.

Definition add_event (e : event) (s : state) : state :=
  {| self := self s;
     env := {| heap := heap (env s); wall_clock := wall_clock (env s);
               trace := trace (env s) ++ [e] |} |}.

Definition set_cpp (c : HPolytopeCPP) (s : state) : state :=
  {| self := {| polytope_cpp := c; _A := _A (self s); _b := _b (self s) |};
     env := env s |}.

Definition log (e : event) : M unit := fun s => (Return tt, add_event e s).

(** Reading through a pointer: the doubles found at that address. *)
Definition peek (l : nat) : M buffer :=
  fun s => (Return (default [] (heap (env s) !! l)), s).

(** Doubles stored from the start of an array: the array keeps its size. *)
Definition overwrite (old new : buffer) : buffer :=
  take (length old) new ++ drop (length new) old.

(** The native code filling the array a pointer designates; answers what
    the array holds afterwards. *)
Definition poke (l : nat) (d : buffer) : M buffer :=
  fun s =>
    let h := alter (fun old => overwrite old d) l (heap (env s)) in
    (Return (default [] (h !! l)), set_heap h s).

Definition alloc (d : buffer) : M nat :=
  fun s => (Return (length (heap (env s))),
            set_heap (heap (env s) ++ [d]) s).

Definition negative_dimensions : exn :=
  ValueError "negative dimensions are not allowed".

(** A Python int passed where a C [int] ([unsigned int]) is expected. *)
Definition as_c_int (z : Z) : M Z :=
  if c_int_fits z then ret z else raise OverflowError.

Definition as_c_uint (z : Z) : M Z :=
  if c_uint_fits z then ret z else raise OverflowError.

(** [np.asarray(x)] of a C double: a new 0-d array. *)
Definition np_asarray_scalar (x : float) : M scalar_array :=
  l ← alloc [x];
  ret {| base0 := l |}.

(** [np.zeros((r, c), dtype=np.float64, order="C")], for dimensions numpy
    can index ([npy_intp]). *)
Definition np_zeros2 (r c : Z) : M memview2 :=
  if (r <? 0) || (c <? 0) then raise negative_dimensions
  else
    l ← alloc (replicate (Z.to_nat (r * c)) 0%float);
    ret {| base2 := l; shape2 := (Z.to_nat r, Z.to_nat c) |}.

(** [np.zeros(n, dtype=np.float64, order="C")]. *)
Definition np_zeros1 (n : Z) : M memview1 :=
  if n <? 0 then raise negative_dimensions
  else
    l ← alloc (replicate (Z.to_nat n) 0%float);
    ret {| base1 := l; shape1 := Z.to_nat n |}.

(** What a Python callee sees of a memoryview (or of [np.asarray] of it,
    which shares the buffer). *)
Definition deref2 (h : list buffer) (v : memview2) : ndarray2 :=
  {| nd2_shape := shape2 v; nd2_data := default [] (h !! base2 v) |}.
Definition deref1 (h : list buffer) (v : memview1) : ndarray1 :=
  {| nd1_shape := shape1 v; nd1_data := default [] (h !! base1 v) |}.

Definition read2 (v : memview2) : M ndarray2 :=
  fun s => (Return (deref2 (heap (env s)) v), s).
Definition read1 (v : memview1) : M ndarray1 :=
  fun s => (Return (deref1 (heap (env s)) v), s).

Definition get_self : M HPolytope := fun s => (Return (self s), s).

(** *** Calls to the inner-ball suppliers *)

Definition slow_inner_ball (A : memview2) (b : memview1) : M (buffer * float) :=
  A' ← read2 A; b' ← read1 b;
  let '(center, radius) := slow_inner_ball_impl A' b' in
  log (Call_inner_ball false A' b' center radius);;
  ret (center, radius).

Definition fast_inner_ball (A : memview2) (b : memview1) : M (buffer * float) :=
  match fast_inner_ball_impl with
  | None => raise (NameError "fast_inner_ball")
  | Some f =>
      A' ← read2 A; b' ← read1 b;
      let '(center, radius) := f A' b' in
      log (Call_inner_ball true A' b' center radius);;
      ret (center, radius)
  end.

(** *** Calls to the native object *)

Definition put_cpp (c : HPolytopeCPP) : M unit :=
  fun s => (Return tt, set_cpp c s).

Definition call_compute_volume (vol_method walk_method : bytes)
    (walk_len : Z) (epsilon : float) (seed : Z) : M float :=
  this ← get_self;
  let '(volume, cpp) :=
    cpp_compute_volume (polytope_cpp this) vol_method walk_method walk_len
                       epsilon seed in
  log (Call_compute_volume vol_method walk_method walk_len epsilon seed);;
  put_cpp cpp;;
  ret volume.

Definition call_apply_sampling (walk_len number_of_points
    number_of_points_to_burn method : Z) (inner_point : buffer)
    (radius : float) (samples : memview2) : M float :=
  this ← get_self;
  samples0 ← peek (base2 samples);
  let '(r, samples1, cpp) :=
    cpp_apply_sampling (polytope_cpp this) walk_len number_of_points
                       number_of_points_to_burn method inner_point radius
                       samples0 in
  log (Call_apply_sampling walk_len number_of_points number_of_points_to_burn
                           method inner_point radius);;
  poke (base2 samples) samples1;;
  put_cpp cpp;;
  ret r.

Definition call_mmcs_initialize (d ess psrf_check parallelism
    num_threads : Z) : M unit :=
  this ← get_self;
  log (Call_mmcs_initialize d ess psrf_check parallelism num_threads);;
  put_cpp (cpp_mmcs_initialize (polytope_cpp this) d ess psrf_check
                               parallelism num_threads).

Definition call_mmcs_step (inner_point : buffer) (radius : float)
  : M (float * Z) :=
  this ← get_self;
  let '(check, N, cpp) :=
    cpp_mmcs_step (polytope_cpp this) inner_point radius in
  log (Call_mmcs_step inner_point radius check N);;
  put_cpp cpp;;
  ret (check, N).

Definition call_get_mmcs_samples (T_matrix : memview2) (T_shift : memview1)
    (samples : memview2) : M unit :=
  this ← get_self;
  T0 ← peek (base2 T_matrix);
  shift0 ← peek (base1 T_shift);
  samples0 ← peek (base2 samples);
  let '(T1, shift1, samples1, cpp) :=
    cpp_get_mmcs_samples (polytope_cpp this) T0 shift0 samples0 in
  log Call_get_mmcs_samples;;
  poke (base2 T_matrix) T1;;
  poke (base1 T_shift) shift1;;
  poke (base2 samples) samples1;;
  put_cpp cpp.

Definition call_get_polytope_as_matrices (new_A : memview2)
    (new_b : memview1) : M unit :=
  this ← get_self;
  A0 ← peek (base2 new_A);
  b0 ← peek (base1 new_b);
  let '(A1, b1, cpp) :=
    cpp_get_polytope_as_matrices (polytope_cpp this) A0 b0 in
  A1 ← poke (base2 new_A) A1;
  b1 ← poke (base1 new_b) b1;
  log (Call_get_polytope_as_matrices A1 b1);;
  put_cpp cpp.

Definition call_apply_rounding (rounding_method : Z) (new_A : memview2)
    (new_b : memview1) (T_matrix : memview2) (shift : memview1)
    (inner_point : buffer) (radius : float) : M float :=
  this ← get_self;
  A0 ← peek (base2 new_A);
  b0 ← peek (base1 new_b);
  T0 ← peek (base2 T_matrix);
  shift0 ← peek (base1 shift);
  let '(A1, b1, T1, shift1, round_value, cpp) :=
    cpp_apply_rounding (polytope_cpp this) rounding_method A0 b0 T0 shift0
                       inner_point radius in
  log (Call_apply_rounding rounding_method inner_point radius);;
  poke (base2 new_A) A1;;
  poke (base1 new_b) b1;;
  poke (base2 T_matrix) T1;;
  poke (base1 shift) shift1;;
  put_cpp cpp;;
  ret round_value.

(** *** [HPolytope.__cinit__] *)

(** How a construction ends.  The native constructor is given two
    pointers and the shape of [A]; it reads [n_hyperplanes * n_variables]
    doubles at the first and [n_hyperplanes] at the second (the sizes the
    specification gives [A] and [b]).  [Reads_out_of_bounds]: fewer doubles
    than that are there, and what the process does is undefined. *)
Inductive constructed : Type :=
  | Built (this : HPolytope)
  | Raises (e : exn)
  | Reads_out_of_bounds.

Definition cinit (A : memview2) (b : memview1) (w : world)
  : constructed * world :=
  let n_hyperplanes := fst (shape2 A) in
  let n_variables := snd (shape2 A) in
  let A0 := default [] (heap w !! base2 A) in
  let b0 := default [] (heap w !! base1 b) in
  let w' :=
    {| heap := heap w; wall_clock := wall_clock w;
       trace := trace w ++ [Call_HPolytopeCPP A0 b0 (Z.of_nat n_hyperplanes)
                                              (Z.of_nat n_variables)] |} in
  if negb (c_int_fits (Z.of_nat n_hyperplanes)
           && c_int_fits (Z.of_nat n_variables)) then
    (Raises OverflowError, w)
  else if (length A0 <? n_hyperplanes * n_variables)%nat
          || (length b0 <? n_hyperplanes)%nat then
    (Reads_out_of_bounds, w')
  else
    match cpp_new A0 b0 (Z.of_nat n_hyperplanes) (Z.of_nat n_variables) with
    | inr cpp => (Built {| polytope_cpp := cpp; _A := A; _b := b |}, w')
    | inl e => (Raises e, w')
    end.

(** *** [HPolytope.compute_volume] *)

Definition walk_not_implemented : string :=
  dquote ++ "{}" ++ dquote ++
  " is not implemented to walk methods. Available methods are: {}".

Definition volume_not_implemented : string :=
  dquote ++ "{}" ++ dquote ++
  " is not implemented to compute volume. Available methods are: {}".

Definition compute_volume (md : module_state) (walk_len : option Z)
    (epsilon : option float) (vol_method walk_method : option string)
    (seed : option Z) : M float :=
  let walk_len := default 2 walk_len in
  let epsilon := default 0x1.999999999999ap-5%float epsilon in  (* 0.05 *)
  let vol_method := default "sequence_of_balls"%string vol_method in
  let walk_method := default "uniform_ball"%string walk_method in
  seed ←
    match seed with
    | Some given => as_c_int given          (* [np.npy_int32 seed], on entry *)
    | None => ret (compute_volume_seed_default md)
    end;
  let vol_method := encode vol_method in
  let walk_method := encode walk_method in
  if py_in vol_method volume_methods then
    if py_in walk_method walk_methods then
      walk_len ← as_c_int walk_len;
      call_compute_volume vol_method walk_method walk_len epsilon seed
    else
      raise (Exception_format walk_not_implemented walk_method walk_methods)
  else
    raise (Exception_format volume_not_implemented vol_method volume_methods).

(** *** [HPolytope.generate_samples]

    [int_method] is one of 1 to 7 and fits its C [int] slot; the three
    integers of the caller are converted at the native call, in the order
    of the arguments. *)

Definition sampling_method_code (method : string) : option Z :=
  if (method =? "cdhr")%string then Some 1
  else if (method =? "rdhr")%string then Some 2
  else if (method =? "billiard_walk")%string then Some 3
  else if (method =? "ball_walk")%string then Some 4
  else if (method =? "dikin_walk")%string then Some 5
  else if (method =? "john_walk")%string then Some 6
  else if (method =? "vaidya_walk")%string then Some 7
  else None.

Definition generate_samples (method : string) (number_of_points
    number_of_points_to_burn walk_len : Z) (fast_mode : bool)
  : M memview2 :=
  this ← get_self;
  let n_variables := snd (shape2 (_A this)) in
  samples ← np_zeros2 number_of_points (Z.of_nat n_variables);
  '(temp_center, radius) ←
    (if fast_mode then fast_inner_ball (_A this) (_b this)
     else slow_inner_ball (_A this) (_b this));
  let inner_point_for_c := temp_center in
  int_method ←
    match sampling_method_code method with
    | Some c => ret c
    | None => raise (RuntimeError "Uknown MCMC sampling method")
    end;
  walk_len ← as_c_int walk_len;
  n_points ← as_c_int number_of_points;
  n_burn ← as_c_int number_of_points_to_burn;
  call_apply_sampling walk_len n_points n_burn int_method inner_point_for_c
                      radius samples;;
  ret samples.

(** *** [HPolytope.rounding] *)

Definition rounding_method_code (rounding_method : string) : option Z :=
  if (rounding_method =? "john_position")%string then Some 1
  else if (rounding_method =? "isotropic_position")%string then Some 2
  else if (rounding_method =? "min_ellipsoid")%string then Some 3
  else None.

Definition rounding (rounding_method : option string)
    (fast_mode : option bool)
  : M (memview2 * memview1 * memview2 * memview1 * scalar_array) :=
  let rounding_method := default "john_position"%string rounding_method in
  let fast_mode := default false fast_mode in
  this ← get_self;
  let n_hyperplanes := fst (shape2 (_A this)) in
  let n_variables := snd (shape2 (_A this)) in
  new_A ← np_zeros2 (Z.of_nat n_hyperplanes) (Z.of_nat n_variables);
  new_b ← np_zeros1 (Z.of_nat n_hyperplanes);
  T_matrix ← np_zeros2 (Z.of_nat n_variables) (Z.of_nat n_variables);
  shift ← np_zeros1 (Z.of_nat n_variables);
  '(center, radius) ←
    (if fast_mode then fast_inner_ball (_A this) (_b this)
     else slow_inner_ball (_A this) (_b this));
  let inner_point_for_c := center in
  int_method ←
    match rounding_method_code rounding_method with
    | Some c => ret c
    | None => raise (RuntimeError "Uknown rounding method")
    end;
  round_value ← call_apply_rounding int_method new_A new_b T_matrix shift
                                    inner_point_for_c radius;
  round_value ← np_asarray_scalar round_value;
  ret (new_A, new_b, T_matrix, shift, round_value).

(** *** [HPolytope.fast_mmcs] *)

(** The [while True] loop.  [fuel] bounds the number of iterations the
    model follows; the source has no bound. *)
Fixpoint fast_mmcs_loop (fuel : nat) (new_A : memview2) (new_b : memview1)
    (inner_point_for_c : buffer) (radius : float) : M Z :=
  match fuel with
  | O => out_of_fuel
  | S fuel =>
      '(check, N_samples) ← call_mmcs_step inner_point_for_c radius;
      if (1 <? check)%float && (check <? 2)%float then ret N_samples
      else
        call_get_polytope_as_matrices new_A new_b;;
        '(new_temp_c, radius) ← fast_inner_ball new_A new_b;
        fast_mmcs_loop fuel new_A new_b new_temp_c radius
  end.

Definition fast_mmcs (fuel : nat) (ess : option Z)
    (psrf_check parallelism : option bool) (num_threads : option Z)
  : M (memview2 * memview1 * memview2 * memview1 * memview2) :=
  let ess := default 1000 ess in
  let psrf_check := default true psrf_check in
  let parallelism := default false parallelism in
  let num_threads := default 2 num_threads in
  this ← get_self;
  let n_hyperplanes := fst (shape2 (_A this)) in
  let n_variables := snd (shape2 (_A this)) in
  new_A ← np_zeros2 (Z.of_nat n_hyperplanes) (Z.of_nat n_variables);
  new_b ← np_zeros1 (Z.of_nat n_hyperplanes);
  T_matrix ← np_zeros2 (Z.of_nat n_variables) (Z.of_nat n_variables);
  T_shift ← np_zeros1 (Z.of_nat n_variables);
  N_ess ← as_c_int ess;
  let check_psrf := psrf_check in
  let parallel := parallelism in
  d ← as_c_uint (Z.of_nat n_variables);
  ess ← as_c_int ess;
  num_threads ← as_c_int num_threads;
  call_mmcs_initialize d ess (Z.b2z check_psrf) (Z.b2z parallel)
                       num_threads;;
  '(temp_center, radius) ← fast_inner_ball (_A this) (_b this);
  N_samples ← fast_mmcs_loop fuel new_A new_b temp_center radius;
  samples ← np_zeros2 (Z.of_nat n_variables) N_samples;
  call_get_mmcs_samples T_matrix T_shift samples;;
  call_get_polytope_as_matrices new_A new_b;;
  ret (new_A, new_b, T_matrix, T_shift, samples).

(** *** [HPolytope.slow_mmcs] *)

Fixpoint slow_mmcs_loop (fuel : nat) (new_A : memview2) (new_b : memview1)
    (inner_point_for_c : buffer) (radius : float) : M Z :=
  match fuel with
  | O => out_of_fuel
  | S fuel =>
      '(check, N_samples) ← call_mmcs_step inner_point_for_c radius;
      if (1 <? check)%float && (check <? 2)%float then ret N_samples
      else
        call_get_polytope_as_matrices new_A new_b;;
        '(new_temp_c, radius) ← slow_inner_ball new_A new_b;
        slow_mmcs_loop fuel new_A new_b new_temp_c radius
  end.

Definition slow_mmcs (fuel : nat) (ess : option Z)
    (psrf_check parallelism : option bool) (num_threads : option Z)
  : M (memview2 * memview1 * memview2 * memview1 * memview2) :=
  let ess := default 1000 ess in
  let psrf_check := default true psrf_check in
  let parallelism := default false parallelism in
  let num_threads := default 2 num_threads in
  this ← get_self;
  let n_hyperplanes := fst (shape2 (_A this)) in
  let n_variables := snd (shape2 (_A this)) in
  new_A ← np_zeros2 (Z.of_nat n_hyperplanes) (Z.of_nat n_variables);
  new_b ← np_zeros1 (Z.of_nat n_hyperplanes);
  T_matrix ← np_zeros2 (Z.of_nat n_variables) (Z.of_nat n_variables);
  T_shift ← np_zeros1 (Z.of_nat n_variables);
  N_ess ← as_c_int ess;
  let check_psrf := psrf_check in
  let parallel := parallelism in
  d ← as_c_uint (Z.of_nat n_variables);
  ess ← as_c_int ess;
  num_threads ← as_c_int num_threads;
  call_mmcs_initialize d ess (Z.b2z check_psrf) (Z.b2z parallel)
                       num_threads;;
  '(temp_center, radius) ← slow_inner_ball (_A this) (_b this);
  N_samples ← slow_mmcs_loop fuel new_A new_b temp_center radius;
  samples ← np_zeros2 (Z.of_nat n_variables) N_samples;
  call_get_mmcs_samples T_matrix T_shift samples;;
  call_get_polytope_as_matrices new_A new_b;;
  ret (new_A, new_b, T_matrix, T_shift, samples).

(** *** Accessors.  [np.asarray] of a memoryview shares its buffer. *)

Definition A : M memview2 := this ← get_self; ret (_A this).
Definition b : M memview1 := this ← get_self; ret (_b this).
Definition dimension : M nat := this ← get_self; ret (snd (shape2 (_A this))).

(** ** Vocabulary of the specification *)

(** The allow-lists as the interface documents them. *)
Definition volume_allowed : list string :=
  ["sequence_of_balls"; "cooling_gaussian"; "cooling_balls"]%string.

Definition walk_allowed : list string :=
  ["uniform_ball"; "CDHR"; "RDHR"; "gaussian_ball"; "gaussian_CDHR";
   "gaussian_RDHR"; "billiard"]%string.

Definition sampling_allowed : list (string * Z) :=
  [("cdhr", 1); ("rdhr", 2); ("billiard_walk", 3); ("ball_walk", 4);
   ("dikin_walk", 5); ("john_walk", 6); ("vaidya_walk", 7)]%string.

Definition rounding_allowed : list (string * Z) :=
  [("john_position", 1); ("isotropic_position", 2);
   ("min_ellipsoid", 3)]%string.

(** Modelled from the spec: the status classes of [mmcs_step], whose code
    is native.  [converged] is [1 < status < 2]; [failed] is [status >= 2]
    or negative. *)
Definition converged (status : float) : bool :=
  (1 <? status)%float && (status <? 2)%float.

Definition failed (status : float) : bool :=
  (2 <=? status)%float || (status <? 0)%float.

(** An event that is not an [mmcs_step] answering a converged status. *)
Definition not_converged_step (e : event) : Prop :=
  match e with
  | Call_mmcs_step _ _ status _ => converged status = false
  | _ => True
  end.

(** The supplier a [fast_mode] flag selects is bound in the module. *)
Definition supplier_bound (fast_mode : bool) : bool :=
  if fast_mode then bool_decide (is_Some fast_inner_ball_impl) else true.

(** The supplier function behind a flag (when bound). *)
Definition supplier_impl (fast : bool) : option inner_ball_fn :=
  if fast then fast_inner_ball_impl else Some slow_inner_ball_impl.

(** The supplier call a flag selects. *)
Definition inner_ball_of (fast : bool) (A : memview2) (b : memview1)
  : M (buffer * float) :=
  if fast then fast_inner_ball A b else slow_inner_ball A b.

(** Events that enter the native object. *)
Definition is_native_call (e : event) : bool :=
  match e with
  | Call_time | Call_inner_ball _ _ _ _ _ => false
  | _ => true
  end.

Definition is_inner_ball_call (e : event) : bool :=
  match e with Call_inner_ball _ _ _ _ _ => true | _ => false end.

Definition is_mmcs_step (e : event) : bool :=
  match e with Call_mmcs_step _ _ _ _ => true | _ => false end.

(** Whether, in a run's events, every [mmcs_step] that answered a failed
    status is the last [mmcs_step] of the run. *)
Fixpoint stops_at_failed_status (evs : list event) : bool :=
  match evs with
  | [] => true
  | Call_mmcs_step _ _ status _ :: rest =>
      (if failed status then negb (existsb is_mmcs_step rest) else true)
      && stops_at_failed_status rest
  | _ :: rest => stops_at_failed_status rest
  end.

(** The MMCS driver as the specification words it: one procedure over an
    inner-ball supplier, of which [fast_mmcs] and [slow_mmcs] are meant to
    be the two instances. *)
Fixpoint mmcs_loop_with (supplier : memview2 -> memview1 -> M (buffer * float))
    (fuel : nat) (new_A : memview2) (new_b : memview1)
    (start_point : buffer) (radius : float) : M Z :=
  match fuel with
  | O => out_of_fuel
  | S fuel =>
      '(status, count) ← call_mmcs_step start_point radius;
      if converged status then ret count
      else
        call_get_polytope_as_matrices new_A new_b;;
        '(start_point, radius) ← supplier new_A new_b;
        mmcs_loop_with supplier fuel new_A new_b start_point radius
  end.

(** The integers a driver hands the native object fit their slots. *)
Definition mmcs_args_fit (n_variables : nat) (ess num_threads : Z) : bool :=
  c_int_fits ess && c_uint_fits (Z.of_nat n_variables)
  && c_int_fits num_threads.

Definition mmcs_with (supplier : memview2 -> memview1 -> M (buffer * float))
    (fuel : nat) (ess : option Z) (psrf_check parallelism : option bool)
    (num_threads : option Z)
  : M (memview2 * memview1 * memview2 * memview1 * memview2) :=
  this ← get_self;
  let '(m, n) := shape2 (_A this) in
  new_A ← np_zeros2 (Z.of_nat m) (Z.of_nat n);
  new_b ← np_zeros1 (Z.of_nat m);
  T ← np_zeros2 (Z.of_nat n) (Z.of_nat n);
  shift ← np_zeros1 (Z.of_nat n);
  (if mmcs_args_fit n (default 1000 ess) (default 2 num_threads)
   then ret tt else raise OverflowError);;
  call_mmcs_initialize (Z.of_nat n) (default 1000 ess)
                       (Z.b2z (default true psrf_check))
                       (Z.b2z (default false parallelism))
                       (default 2 num_threads);;
  '(start_point, radius) ← supplier (_A this) (_b this);
  count ← mmcs_loop_with supplier fuel new_A new_b start_point radius;
  samples ← np_zeros2 (Z.of_nat n) count;
  call_get_mmcs_samples T shift samples;;
  call_get_polytope_as_matrices new_A new_b;;
  ret (new_A, new_b, T, shift, samples).

(** The events of a phase loop of at most [fuel] phases that starts at
    [(c, r)] with supplier [f] (flagged [fast]) and arrays of shapes [shA],
    [shb]; the last index is the sample count the loop exits with, if it
    exits. *)
Inductive phase_trace (fast : bool) (f : inner_ball_fn) (shA : nat * nat)
    (shb : nat) : nat -> buffer -> float -> list event -> option Z -> Prop :=
  | phase_fuel c r : phase_trace fast f shA shb 0 c r [] None
  | phase_converged fuel c r status N :
      converged status = true ->
      phase_trace fast f shA shb (S fuel) c r
                  [Call_mmcs_step c r status N] (Some N)
  | phase_continue fuel c r status N A1 b1 c1 r1 evs res :
      converged status = false ->
      f {| nd2_shape := shA; nd2_data := A1 |}
        {| nd1_shape := shb; nd1_data := b1 |} = (c1, r1) ->
      phase_trace fast f shA shb fuel c1 r1 evs res ->
      phase_trace fast f shA shb (S fuel) c r
        (Call_mmcs_step c r status N
         :: Call_get_polytope_as_matrices A1 b1
         :: Call_inner_ball fast {| nd2_shape := shA; nd2_data := A1 |}
                            {| nd1_shape := shb; nd1_data := b1 |} c1 r1
         :: evs) res.

(** The same loop, tied to the native object: [cpp] is the object when the
    phase starts, [A_now] and [b_now] what the arrays handed to
    [get_polytope_as_matrices] hold then.  Every status and count is what
    [mmcs_step] answers on the object as the calls so far left it; every
    fetched polytope is what [get_polytope_as_matrices] stores into the
    two arrays. *)
Inductive native_phases (fast : bool) (f : inner_ball_fn) (shA : nat * nat)
    (shb : nat)
  : nat -> HPolytopeCPP -> buffer -> buffer -> buffer -> float ->
    list event -> option Z -> Prop :=
  | native_fuel cpp A_now b_now c r :
      native_phases fast f shA shb 0 cpp A_now b_now c r [] None
  | native_converged fuel cpp A_now b_now c r status N cpp1 :
      cpp_mmcs_step cpp c r = (status, N, cpp1) ->
      converged status = true ->
      native_phases fast f shA shb (S fuel) cpp A_now b_now c r
                    [Call_mmcs_step c r status N] (Some N)
  | native_continue fuel cpp A_now b_now c r status N cpp1 A_raw b_raw cpp2
                    c1 r1 evs res :
      cpp_mmcs_step cpp c r = (status, N, cpp1) ->
      converged status = false ->
      cpp_get_polytope_as_matrices cpp1 A_now b_now = (A_raw, b_raw, cpp2) ->
      f {| nd2_shape := shA; nd2_data := overwrite A_now A_raw |}
        {| nd1_shape := shb; nd1_data := overwrite b_now b_raw |}
        = (c1, r1) ->
      native_phases fast f shA shb fuel cpp2 (overwrite A_now A_raw)
                    (overwrite b_now b_raw) c1 r1 evs res ->
      native_phases fast f shA shb (S fuel) cpp A_now b_now c r
        (Call_mmcs_step c r status N
         :: Call_get_polytope_as_matrices (overwrite A_now A_raw)
                                          (overwrite b_now b_raw)
         :: Call_inner_ball fast
              {| nd2_shape := shA; nd2_data := overwrite A_now A_raw |}
              {| nd1_shape := shb; nd1_data := overwrite b_now b_raw |}
              c1 r1
         :: evs) res.

(** A call of one of the five operations, and a client that performs a
    series of them on one object (catching what they raise). *)
Inductive call : Type :=
  | Compute_volume (walk_len : option Z) (epsilon : option float)
                   (vol_method walk_method : option string) (seed : option Z)
  | Generate_samples (method : string) (number_of_points
                     number_of_points_to_burn walk_len : Z) (fast_mode : bool)
  | Rounding (rounding_method : option string) (fast_mode : option bool)
  | Fast_mmcs (fuel : nat) (ess : option Z)
              (psrf_check parallelism : option bool) (num_threads : option Z)
  | Slow_mmcs (fuel : nat) (ess : option Z)
              (psrf_check parallelism : option bool) (num_threads : option Z).

Definition perform (md : module_state) (c : call) (s : state) : state :=
  match c with
  | Compute_volume walk_len epsilon vol_method walk_method seed =>
      snd (compute_volume md walk_len epsilon vol_method walk_method seed s)
  | Generate_samples method n burn walk_len fast_mode =>
      snd (generate_samples method n burn walk_len fast_mode s)
  | Rounding rounding_method fast_mode =>
      snd (rounding rounding_method fast_mode s)
  | Fast_mmcs fuel ess psrf_check parallelism num_threads =>
      snd (fast_mmcs fuel ess psrf_check parallelism num_threads s)
  | Slow_mmcs fuel ess psrf_check parallelism num_threads =>
      snd (slow_mmcs fuel ess psrf_check parallelism num_threads s)
  end.

Definition perform_all (md : module_state) (cs : list call) (s : state)
  : state := fold_left (fun s c => perform md c s) cs s.

(** The object [HPolytope(A, b)] leaves, with the process around it. *)
Definition construct (A0 : memview2) (b0 : memview1) (w : world)
  : option state :=
  match cinit A0 b0 w with
  | (Built this, w') => Some {| self := this; env := w' |}
  | _ => None
  end.

(** What a caller reads in the array [A()] / [b()] hands out. *)
Definition A_value : M ndarray2 := v ← A; read2 v.
Definition b_value : M ndarray1 := v ← b; read1 v.

(** The stored views designate arrays of the heap (as they do once
    [__cinit__] has been handed two arrays of the caller). *)
Definition valid_object (s : state) : Prop :=
  (base2 (_A (self s)) < length (heap (env s)))%nat /\
  (base1 (_b (self s)) < length (heap (env s)))%nat.

(** What [s0] stores is still what [s] stores: the same two views, and
    every array that existed in [s0] with the contents it had. *)
Definition stored_kept (s0 s : state) : Prop :=
  _A (self s) = _A (self s0) /\
  _b (self s) = _b (self s0) /\
  (length (heap (env s0)) <= length (heap (env s)))%nat /\
  forall l, (l < length (heap (env s0)))%nat ->
            heap (env s) !! l = heap (env s0) !! l.

(** A computation keeps what [s0] stores, and what it returns satisfies
    [Q]. *)
Definition keeps {X} (s0 : state) (m : M X) (Q : X -> Prop) : Prop :=
  forall s, stored_kept s0 s ->
            stored_kept s0 (snd (m s)) /\
            forall x, fst (m s) = Return x -> Q x.

(** An array allocated after [s0]. *)
Definition fresh_for (s0 : state) (l : nat) : Prop :=
  (length (heap (env s0)) <= l)%nat.

(** An event with the mark of which supplier was called erased. *)
Definition unflag (e : event) : event :=
  match e with
  | Call_inner_ball _ A b center radius =>
      Call_inner_ball false A b center radius
  | _ => e
  end.

(** Two states that differ at most in which supplier their traces name. *)
Definition same_but_flags (s1 s2 : state) : Prop :=
  self s1 = self s2 /\
  heap (env s1) = heap (env s2) /\
  wall_clock (env s1) = wall_clock (env s2) /\
  unflag <$> trace (env s1) = unflag <$> trace (env s2).

(** Two computations that, from such states, end alike in such states. *)
Definition agree {X} (m1 m2 : M X) : Prop :=
  forall s1 s2, same_but_flags s1 s2 ->
                fst (m1 s1) = fst (m2 s2) /\
                same_but_flags (snd (m1 s1)) (snd (m2 s2)).

(** The events a run added. *)
Definition new_events (s s' : state) : list event :=
  drop (length (trace (env s))) (trace (env s')).

End Wrapper.

Arguments HPolytope : clear implicits.
Arguments state : clear implicits.

(** ** A scripted native object, for running the wrapper

    [mmcs_step] plays back a list of statuses fixed at construction (and
    reports as many samples as it has been called); every output array is
    left as it was passed.  The suppliers return the unit radius at the
    origin of the right dimension. *)
Module Script.

Definition core (script : list float) : HPolytopeCPP_class := {|
  HPolytopeCPP := list float * Z;
  cpp_new _ _ _ _ := inr (script, 0);
  cpp_compute_volume c _ _ _ _ _ := (1%float, c);
  cpp_apply_sampling c _ _ _ _ _ _ samples := (0%float, samples, c);
  cpp_mmcs_initialize c _ _ _ _ _ := (script, 0);
  cpp_mmcs_step c _ _ :=
    match fst c with
    | [] => (nan, snd c + 1, ([], snd c + 1))
    | check :: rest => (check, snd c + 1, (rest, snd c + 1))
    end;
  cpp_get_mmcs_samples c T shift samples := (T, shift, samples, c);
  cpp_get_polytope_as_matrices c new_A new_b := (new_A, new_b, c);
  cpp_apply_rounding c _ new_A new_b T shift _ _ :=
    (new_A, new_b, T, shift, 1%float, c)
|}.

Definition origin_ball : inner_ball_fn :=
  fun A _ => (replicate (snd (nd2_shape A)) 0%float, 1%float).

Definition with_gurobi : InnerBall :=
  {| slow_inner_ball_impl := origin_ball;
     fast_inner_ball_impl := Some origin_ball |}.

Definition without_gurobi : InnerBall :=
  {| slow_inner_ball_impl := origin_ball; fast_inner_ball_impl := None |}.

(** The unit square [0 <= x, y <= 1] as [A x <= b], already on the heap. *)
Definition square_A : buffer := [1; 0; 0; 1; -1; 0; 0; -1]%float.
Definition square_b : buffer := [1; 1; 0; 0]%float.

Definition w0 : world :=
  {| heap := [square_A; square_b]; wall_clock := 1700000000; trace := [] |}.

(** The module as the import at [w0] leaves it. *)
Definition imported : module_state :=
  {| compute_volume_seed_default := 1700000000 |}.

(** A process whose clock is past the last second an [npy_int32] holds. *)
Definition w_2038 : world :=
  {| heap := []; wall_clock := 2147483648; trace := [] |}.

Definition view_A : memview2 := {| base2 := 0; shape2 := (4%nat, 2%nat) |}.
Definition view_b : memview1 := {| base1 := 1; shape1 := 4 |}.

(** A view of the first three entries of [b] only. *)
Definition view_b3 : memview1 := {| base1 := 1; shape1 := 3 |}.

(** [HPolytope(A, b)] on the square, as [__cinit__] leaves it. *)
Definition start (script : list float) : state (core script) :=
  {| self := {| polytope_cpp := ((script, 0) : @HPolytopeCPP (core script));
                _A := view_A; _b := view_b |};
     env := {| heap := heap w0; wall_clock := wall_clock w0;
               trace := [Call_HPolytopeCPP square_A square_b 4 2] |} |}.

(** The same object an hour later. *)
Definition later (script : list float) : state (core script) :=
  {| self := self (start script);
     env := {| heap := heap w0; wall_clock := wall_clock w0 + 3600;
               trace := trace (env (start script)) |} |}.

End Script.


(** ** Further vocabulary *)

Definition is_get_polytope (e : event) : bool :=
  match e with Call_get_polytope_as_matrices _ _ => true | _ => false end.

(** How many events of a kind a run made. *)
Definition count_events (p : event -> bool) (evs : list event) : nat :=
  length (List.filter p evs).

Section Caller.
Context {cpp_class : HPolytopeCPP_class}.


End Caller.

(** A native object whose [mmcs_step] answers the same status for ever
    (a NaN, say, from a numerical breakdown); output arrays are left as
    passed. *)
Module Stalled.

Definition core (status : float) : HPolytopeCPP_class := {|
  HPolytopeCPP := unit;
  cpp_new _ _ _ _ := inr tt;
  cpp_compute_volume c _ _ _ _ _ := (0%float, c);
  cpp_apply_sampling c _ _ _ _ _ _ samples := (0%float, samples, c);
  cpp_mmcs_initialize c _ _ _ _ _ := c;
  cpp_mmcs_step c _ _ := (status, 0, c);
  cpp_get_mmcs_samples c T shift samples := (T, shift, samples, c);
  cpp_get_polytope_as_matrices c new_A new_b := (new_A, new_b, c);
  cpp_apply_rounding c _ new_A new_b T shift _ _ :=
    (new_A, new_b, T, shift, 1%float, c)
|}.

Definition start (status : float) : state (core status) :=
  {| self := {| polytope_cpp := (tt : @HPolytopeCPP (core status));
                _A := Script.view_A; _b := Script.view_b |};
     env := {| heap := heap Script.w0; wall_clock := wall_clock Script.w0;
               trace := [Call_HPolytopeCPP Script.square_A Script.square_b
                                           4 2] |} |}.

End Stalled.

(** * Properties *)

(** ** Method strings *)

#[global] Instance encode_inj : Inj (=) (=) encode.
Proof.
  intros x y H. unfold encode in H.
  rewrite <- (string_of_list_byte_of_string x),
          <- (string_of_list_byte_of_string y).
  now f_equal.
Qed.

Lemma py_in_volume_methods (v : string) :
  py_in (encode v) volume_methods = bool_decide (v ∈ volume_allowed).
Proof.
  unfold py_in. apply bool_decide_ext.
  change volume_methods with (encode <$> volume_allowed).
  apply list_elem_of_fmap_inj, _.
Qed.

Lemma py_in_walk_methods (v : string) :
  py_in (encode v) walk_methods = bool_decide (v ∈ walk_allowed).
Proof.
  unfold py_in. apply bool_decide_ext.
  change walk_methods with
    (encode <$> ["uniform_ball"; "CDHR"; "RDHR"; "gaussian_ball";
                 "gaussian_CDHR"; "gaussian_RDHR"; "uniform_ball";
                 "billiard"]%string).
  rewrite list_elem_of_fmap_inj by apply _.
  unfold walk_allowed. rewrite !elem_of_cons, !elem_of_nil. tauto.
Qed.

(** ** Status classes *)

Lemma SFcompare_antisym (x y : spec_float) (c : comparison) :
  SFcompare x y = Some c -> SFcompare y x = Some (CompOpp c).
Proof.
  destruct x as [sx|sx| |sx mx ex], y as [sy|sy| |sy my ey]; simpl;
    try discriminate; intros [= <-]; try (destruct sx; reflexivity);
    try (destruct sy; reflexivity); try (destruct sx, sy; reflexivity).
  f_equal.
  destruct sx, sy; try reflexivity;
    rewrite (Z.compare_antisym ex ey); destruct (ex ?= ey)%Z; simpl;
    try reflexivity;
    rewrite (Pos.compare_cont_antisym mx my Eq); simpl;
    destruct (Pos.compare_cont Eq mx my); reflexivity.
Qed.

(** A failed status is not a converged one: the two ranges are disjoint. *)
Lemma failed_not_converged (status : float) :
  failed status = true -> converged status = false.
Proof.
  unfold failed, converged. rewrite !ltb_spec, leb_spec.
  unfold SFltb, SFleb. intros H. apply orb_true_iff in H.
  destruct H as [H|H].
  - destruct (SFcompare (Prim2SF 2) (Prim2SF status)) as [c|] eqn:E;
      try discriminate.
    apply SFcompare_antisym in E. rewrite E.
    destruct c; try discriminate; simpl; apply andb_false_r.
  - destruct (SFcompare (Prim2SF status) (Prim2SF 0)) as [c|] eqn:E;
      try discriminate.
    destruct c; try discriminate.
    replace (Prim2SF 0) with (S754_zero false) in E by reflexivity.
    replace (Prim2SF 1) with (S754_finite false 4503599627370496 (-52))
      by reflexivity.
    destruct (Prim2SF status) as [sg|sg| |sg m e]; simpl in *;
      try discriminate; destruct sg; try discriminate; reflexivity.
Qed.

Section Properties.
Context {cpp_class : HPolytopeCPP_class} {inner_ball : InnerBall}.

Ltac unfold_M :=
  unfold mbind, M_bind, bind, mret, M_ret, ret, raise, out_of_fuel, log,
    peek, poke, alloc, get_self, put_cpp in *.

Lemma as_c_int_fits (z : Z) (s : state cpp_class) :
  c_int_fits z = true -> as_c_int z s = (Return z, s).
Proof. intros H. unfold as_c_int. now rewrite H. Qed.

Lemma as_c_int_overflow (z : Z) (s : state cpp_class) :
  c_int_fits z = false -> as_c_int z s = (Raise OverflowError, s).
Proof. intros H. unfold as_c_int. now rewrite H. Qed.

Lemma as_c_uint_fits (z : Z) (s : state cpp_class) :
  c_uint_fits z = true -> as_c_uint z s = (Return z, s).
Proof. intros H. unfold as_c_uint. now rewrite H. Qed.

Lemma as_c_uint_overflow (z : Z) (s : state cpp_class) :
  c_uint_fits z = false -> as_c_uint z s = (Raise OverflowError, s).
Proof. intros H. unfold as_c_uint. now rewrite H. Qed.

(** [compute_volume], outcome by outcome: the seed is converted on entry,
    the two method strings are tested next, [walk_len] is converted at the
    native call. *)
Lemma compute_volume_run (md : module_state) (walk_len : option Z)
    (epsilon : option float) (vol_method walk_method : option string)
    (seed : option Z) (s : state cpp_class) :
  let vm := default "sequence_of_balls"%string vol_method in
  let wm := default "uniform_ball"%string walk_method in
  let wl := default 2 walk_len in
  let eps := default 0x1.999999999999ap-5%float epsilon in
  let sd := default (compute_volume_seed_default md) seed in
  let native :=
    cpp_compute_volume (polytope_cpp (self s)) (encode vm) (encode wm) wl
                       eps sd in
  compute_volume md walk_len epsilon vol_method walk_method seed s =
    if match seed with Some given => c_int_fits given | None => true end
    then
      if bool_decide (vm ∈ volume_allowed) then
        if bool_decide (wm ∈ walk_allowed) then
          if c_int_fits wl then
            (Return (fst native),
             set_cpp (snd native)
               (add_event (Call_compute_volume (encode vm) (encode wm) wl
                                               eps sd) s))
          else (Raise OverflowError, s)
        else (Raise (Exception_format walk_not_implemented (encode wm)
                                      walk_methods), s)
      else (Raise (Exception_format volume_not_implemented (encode vm)
                                    volume_methods), s)
    else (Raise OverflowError, s).
Proof.
  intros vm wm wl eps sd native.
  unfold compute_volume. fold vm wm wl eps. unfold_M.
  assert (Hseed :
    match seed with
    | Some given => as_c_int given
    | None => fun s0 => (Return (compute_volume_seed_default md), s0)
    end s =
    if match seed with Some given => c_int_fits given | None => true end
    then (Return sd, s) else (Raise OverflowError, s)).
  { subst sd. destruct seed as [given|]; [|reflexivity].
    unfold as_c_int. simpl. destruct (c_int_fits given); reflexivity. }
  rewrite Hseed. clear Hseed.
  destruct (match seed with Some given => c_int_fits given | None => true end);
    [|reflexivity].
  rewrite py_in_volume_methods, py_in_walk_methods.
  repeat case_bool_decide; try reflexivity.
  unfold as_c_int. destruct (c_int_fits wl); [|reflexivity].
  unfold call_compute_volume. unfold_M. fold native.
  destruct native as [v c]. reflexivity.
Qed.

(** C5.  With integers that fit their C slots (the seed, if given, an
    [npy_int32]; [walk_len] a C [int]), [compute_volume] raises exactly
    when [vol_method] is outside {sequence_of_balls, cooling_gaussian,
    cooling_balls} or [walk_method] is outside {uniform_ball, CDHR, RDHR,
    gaussian_ball, gaussian_CDHR, gaussian_RDHR, billiard}; when it raises,
    the object and the process are as before the call (the native object
    was not entered); when both methods are listed, the native
    [compute_volume] is entered once, with the encoded methods, and its
    float is returned. *)
Theorem compute_volume_allow_lists (md : module_state) (walk_len : option Z)
    (epsilon : option float) (vol_method walk_method : option string)
    (seed : option Z) (s : state cpp_class) :
  (forall given, seed = Some given -> c_int_fits given = true) ->
  c_int_fits (default 2 walk_len) = true ->
  let vm := default "sequence_of_balls"%string vol_method in
  let wm := default "uniform_ball"%string walk_method in
  let wl := default 2 walk_len in
  let eps := default 0x1.999999999999ap-5%float epsilon in
  let sd := default (compute_volume_seed_default md) seed in
  let run := compute_volume md walk_len epsilon vol_method walk_method seed s in
  let native :=
    cpp_compute_volume (polytope_cpp (self s)) (encode vm) (encode wm) wl
                       eps sd in
  ((exists e, fst run = Raise e) <->
     ~ (vm ∈ volume_allowed /\ wm ∈ walk_allowed)) /\
  (vm ∉ volume_allowed ->
     run = (Raise (Exception_format volume_not_implemented (encode vm)
                                    volume_methods), s)) /\
  (vm ∈ volume_allowed -> wm ∉ walk_allowed ->
     run = (Raise (Exception_format walk_not_implemented (encode wm)
                                    walk_methods), s)) /\
  (vm ∈ volume_allowed -> wm ∈ walk_allowed ->
     run = (Return (fst native),
            set_cpp (snd native)
              (add_event (Call_compute_volume (encode vm) (encode wm) wl eps
                                              sd) s))).
Proof.
  intros Hseed Hwl vm wm wl eps sd run native.
  subst run. rewrite compute_volume_run. fold vm wm wl eps sd native.
  fold wl in Hwl. rewrite Hwl.
  assert (Hs : match seed with Some given => c_int_fits given | None => true
               end = true).
  { destruct seed as [given|]; [now apply Hseed|reflexivity]. }
  rewrite Hs.
  repeat case_bool_decide; simpl; repeat split; intros; try tauto;
    try (eexists; reflexivity);
    try (exfalso; tauto).
  all: try match goal with H : (exists e, _) |- _ => destruct H; discriminate end.
Qed.

(** ** Arrays and events *)

Lemma overwrite_length (old new : buffer) :
  length (overwrite old new) = length old.
Proof.
  unfold overwrite. rewrite length_app, length_take, length_drop. lia.
Qed.

Lemma np_zeros2_run (r c : Z) (s : state cpp_class) :
  (0 <= r)%Z -> (0 <= c)%Z ->
  np_zeros2 r c s =
    (Return {| base2 := length (heap (env s));
               shape2 := (Z.to_nat r, Z.to_nat c) |},
     set_heap (heap (env s) ++ [replicate (Z.to_nat (r * c)) 0%float]) s).
Proof.
  intros Hr Hc. unfold np_zeros2.
  destruct (Z.ltb_spec r 0); [lia|]. destruct (Z.ltb_spec c 0); [lia|].
  reflexivity.
Qed.

Lemma np_zeros1_run (n : Z) (s : state cpp_class) :
  (0 <= n)%Z ->
  np_zeros1 n s =
    (Return {| base1 := length (heap (env s)); shape1 := Z.to_nat n |},
     set_heap (heap (env s) ++ [replicate (Z.to_nat n) 0%float]) s).
Proof.
  intros Hn. unfold np_zeros1. destruct (Z.ltb_spec n 0); [lia|]. reflexivity.
Qed.

Lemma np_zeros2_negative (r c : Z) (s : state cpp_class) :
  (r < 0 \/ c < 0)%Z -> np_zeros2 r c s = (Raise negative_dimensions, s).
Proof.
  intros H. unfold np_zeros2.
  destruct (Z.ltb_spec r 0); [reflexivity|].
  destruct (Z.ltb_spec c 0); [reflexivity|lia].
Qed.

Lemma new_events_app (s s' : state cpp_class) (evs : list event) :
  trace (env s') = trace (env s) ++ evs -> new_events s s' = evs.
Proof. intros E. unfold new_events. rewrite E. apply drop_app_length. Qed.

Lemma supplier_bound_impl (fast : bool) :
  supplier_bound fast = true -> exists f, supplier_impl fast = Some f.
Proof.
  destruct fast; simpl; [|eauto].
  intros H. apply bool_decide_eq_true in H. destruct H as [f ->]. eauto.
Qed.

(** What a supplier call does, whichever of the two it is. *)
Lemma inner_ball_run (fast : bool) (f : inner_ball_fn) (vA : memview2)
    (vb : memview1) (s : state cpp_class) :
  supplier_impl fast = Some f ->
  (if fast then fast_inner_ball vA vb else slow_inner_ball vA vb) s =
    let A' := deref2 (heap (env s)) vA in
    let b' := deref1 (heap (env s)) vb in
    (Return (f A' b'),
     add_event (Call_inner_ball fast A' b' (fst (f A' b')) (snd (f A' b'))) s).
Proof.
  intros Hf. destruct fast; simpl in Hf.
  - unfold fast_inner_ball. rewrite Hf. unfold read2, read1. unfold_M.
    destruct (f _ _) as [c r]. reflexivity.
  - injection Hf as <-. unfold slow_inner_ball, read2, read1. unfold_M.
    destruct (slow_inner_ball_impl _ _) as [c r]. reflexivity.
Qed.

Lemma fast_inner_ball_unbound (vA : memview2) (vb : memview1)
    (s : state cpp_class) :
  fast_inner_ball_impl = None ->
  fast_inner_ball vA vb s = (Raise (NameError "fast_inner_ball"), s).
Proof. intros E. unfold fast_inner_ball. rewrite E. reflexivity. Qed.

(** ** [generate_samples] *)

Lemma sampling_allowed_code (method : string) (code : Z) :
  (method, code) ∈ sampling_allowed <->
  sampling_method_code method = Some code.
Proof.
  unfold sampling_allowed, sampling_method_code.
  rewrite !elem_of_cons, elem_of_nil. split.
  - intros H. repeat destruct H as [H|H]; try contradiction;
      injection H as -> ->; reflexivity.
  - repeat match goal with
           | |- context [String.eqb method ?m] =>
               destruct (String.eqb_spec method m); [subst method|]
           end; intros [= <-]; tauto.
Qed.

(** C7.  For a method among cdhr, rdhr, billiard_walk, ball_walk,
    dikin_walk, john_walk, vaidya_walk (codes 1 to 7 in that order),
    a non-negative [number_of_points], a bound supplier and [walk_len],
    [number_of_points] and [number_of_points_to_burn] within the range of
    a C [int] (outside it the conversion at the native call raises
    [OverflowError]), [generate_samples] returns an array of shape [(number_of_points,
    n_variables)], [n_variables] being what [dimension()] answers, holding
    [number_of_points * n_variables] doubles; on the way it asks the
    supplier for the inner ball of the stored [(A, b)] and enters the
    native [apply_sampling] once, with the method's code. *)
Theorem generate_samples_shape (method : string) (code : Z)
    (number_of_points number_of_points_to_burn walk_len : Z)
    (fast_mode : bool) (s : state cpp_class) :
  (method, code) ∈ sampling_allowed ->
  (0 <= number_of_points)%Z ->
  supplier_bound fast_mode = true ->
  c_int_fits walk_len = true ->
  c_int_fits number_of_points = true ->
  c_int_fits number_of_points_to_burn = true ->
  valid_object s ->
  exists (n_variables : nat) (samples : memview2) (s' : state cpp_class)
         (data center : buffer) (radius : float),
    fst (dimension s) = Return n_variables /\
    generate_samples method number_of_points number_of_points_to_burn
                     walk_len fast_mode s = (Return samples, s') /\
    shape2 samples = (Z.to_nat number_of_points, n_variables) /\
    heap (env s') !! base2 samples = Some data /\
    length data = (Z.to_nat number_of_points * n_variables)%nat /\
    new_events s s' =
      [Call_inner_ball fast_mode (deref2 (heap (env s)) (_A (self s)))
                       (deref1 (heap (env s)) (_b (self s))) center radius;
       Call_apply_sampling walk_len number_of_points number_of_points_to_burn
                           code center radius].
Proof.
  intros Hm HN Hb Hwl Hnp Hnb [HvA Hvb].
  apply sampling_allowed_code in Hm.
  destruct (supplier_bound_impl _ Hb) as [f Hf].
  exists (snd (shape2 (_A (self s)))).
  unfold generate_samples. unfold_M.
  rewrite np_zeros2_run by lia.
  rewrite (inner_ball_run fast_mode f) by exact Hf. cbv zeta.
  rewrite Hm.
  set (s1 := set_heap _ s).
  set (A' := deref2 (heap (env s1)) _). set (b' := deref1 (heap (env s1)) _).
  destruct (f A' b') as [center radius] eqn:Ef. simpl fst. simpl snd.
  rewrite !as_c_int_fits by assumption.
  unfold call_apply_sampling. unfold_M.
  destruct (cpp_apply_sampling _ _ _ _ _ _ _ _) as [[r samples1] cpp] eqn:Ec.
  eexists _, _, _, center, radius.
  split; [reflexivity|]. split; [reflexivity|].
  split; [simpl; now rewrite Nat2Z.id|].
  simpl. split; [|split].
  - rewrite list_lookup_alter_eq.
    rewrite lookup_app_r, Nat.sub_diag by lia. simpl. reflexivity.
  - rewrite overwrite_length, length_replicate. rewrite Z2Nat.inj_mul by lia.
    now rewrite Nat2Z.id.
  - apply new_events_app. simpl. rewrite <- app_assoc. simpl.
    subst A' b' s1. unfold deref2, deref1. simpl.
    now rewrite !lookup_app_l by assumption.
Qed.

(** ** [rounding] *)

Lemma rounding_allowed_code (method : string) (code : Z) :
  (method, code) ∈ rounding_allowed <->
  rounding_method_code method = Some code.
Proof.
  unfold rounding_allowed, rounding_method_code.
  rewrite !elem_of_cons, elem_of_nil. split.
  - intros H. repeat destruct H as [H|H]; try contradiction;
      injection H as -> ->; reflexivity.
  - repeat match goal with
           | |- context [String.eqb method ?m] =>
               destruct (String.eqb_spec method m); [subst method|]
           end; intros [= <-]; tauto.
Qed.

(** The state in which [rounding] validates its method string: four arrays
    allocated, the inner ball of the stored polytope computed.  After the
    native call the round value is boxed in a fifth, 0-dimensional array. *)
Lemma rounding_run (rounding_method : option string)
    (fast_mode : option bool) (f : inner_ball_fn) (s : state cpp_class) :
  supplier_impl (default false fast_mode) = Some f ->
  exists (new_A : memview2) (new_b : memview1) (T_matrix : memview2)
         (shift : memview1) (s1 : state cpp_class) (A' : ndarray2)
         (b' : ndarray1),
    self s1 = self s /\
    trace (env s1) =
      trace (env s) ++ [Call_inner_ball (default false fast_mode) A' b'
                                        (fst (f A' b')) (snd (f A' b'))] /\
    rounding rounding_method fast_mode s =
      match rounding_method_code
              (default "john_position"%string rounding_method) with
      | Some code =>
          match call_apply_rounding code new_A new_b T_matrix shift
                                    (fst (f A' b')) (snd (f A' b')) s1 with
          | (Return round_value, s2) =>
              (Return (new_A, new_b, T_matrix, shift,
                       {| base0 := length (heap (env s2)) |}),
               set_heap (heap (env s2) ++ [[round_value]]) s2)
          | (Raise e, s2) => (Raise e, s2)
          | (OutOfFuel, s2) => (OutOfFuel, s2)
          end
      | None => (Raise (RuntimeError "Uknown rounding method"), s1)
      end.
Proof.
  intros Hf. unfold rounding, np_asarray_scalar. unfold_M.
  rewrite np_zeros2_run by lia. rewrite np_zeros1_run by lia.
  rewrite np_zeros2_run by lia. rewrite np_zeros1_run by lia.
  rewrite (inner_ball_run _ f) by exact Hf. cbv zeta.
  match goal with
  | |- context [add_event (Call_inner_ball _ ?A' ?b' _ _) ?s0] =>
      set (A1 := A'); set (b1 := b'); set (s1 := s0)
  end.
  eexists _, _, _, _, (add_event _ s1), A1, b1.
  split; [reflexivity|]. split; [reflexivity|].
  destruct (f A1 b1) as [center radius]. simpl fst. simpl snd.
  destruct (rounding_method_code _); [|reflexivity].
  match goal with
  | |- ?L = ?R =>
      match L with
      | context [call_apply_rounding ?c ?a ?b ?t ?sh ?ce ?ra ?st] =>
          unify R
            (match call_apply_rounding c a b t sh ce ra st with
             | (Return round_value, s2) =>
                 (Return (a, b, t, sh, {| base0 := length (heap (env s2)) |}),
                  set_heap (heap (env s2) ++ [[round_value]]) s2)
             | (Raise e, s2) => (Raise e, s2)
             | (OutOfFuel, s2) => (OutOfFuel, s2)
             end);
          destruct (call_apply_rounding c a b t sh ce ra st) as [[rv| |] s2]
      end
  end; reflexivity.
Qed.

Lemma call_apply_rounding_run (code : Z) (new_A : memview2)
    (new_b : memview1) (T_matrix : memview2) (shift : memview1)
    (c : buffer) (r : float) (s : state cpp_class) :
  exists (round_value : float) (s' : state cpp_class),
    call_apply_rounding code new_A new_b T_matrix shift c r s =
      (Return round_value, s') /\
    trace (env s') = trace (env s) ++ [Call_apply_rounding code c r].
Proof.
  unfold call_apply_rounding. unfold_M.
  destruct (cpp_apply_rounding _ _ _ _ _ _ _ _)
    as [[[[[A1 b1] T1] shift1] round_value] cpp].
  eexists _, _. split; reflexivity.
Qed.

(** C6.  [rounding] returns exactly for the method strings john_position,
    isotropic_position and min_ellipsoid, entering the native
    [apply_rounding] with the codes 1, 2 and 3 respectively; for every
    other string, max_ellipsoid included, it raises
    [RuntimeError("Uknown rounding method")] without entering the native
    object. *)
Theorem rounding_accepts_exactly (rounding_method : string)
    (fast_mode : option bool) (s : state cpp_class) :
  supplier_bound (default false fast_mode) = true ->
  let run := rounding (Some rounding_method) fast_mode s in
  ((exists r, fst run = Return r) <->
     exists code, (rounding_method, code) ∈ rounding_allowed) /\
  (forall code, (rounding_method, code) ∈ rounding_allowed ->
     exists c r,
       last (trace (env (snd run))) = Some (Call_apply_rounding code c r)) /\
  ((forall code, (rounding_method, code) ∉ rounding_allowed) ->
     fst run = Raise (RuntimeError "Uknown rounding method") /\
     self (snd run) = self s /\
     forallb (fun e => negb (is_native_call e)) (new_events s (snd run))
       = true) /\
  fst (rounding (Some "max_ellipsoid"%string) fast_mode s)
    = Raise (RuntimeError "Uknown rounding method").
Proof.
  intros Hb run.
  destruct (supplier_bound_impl _ Hb) as [f Hf].
  assert (Hmax : fst (rounding (Some "max_ellipsoid"%string) fast_mode s)
                 = Raise (RuntimeError "Uknown rounding method")).
  { destruct (rounding_run (Some "max_ellipsoid"%string) fast_mode f s Hf)
      as (nA & nb & T & sh & s1 & A' & b' & _ & _ & ->). reflexivity. }
  destruct (rounding_run (Some rounding_method) fast_mode f s Hf)
    as (nA & nb & T & sh & s1 & A' & b' & Hself & Htr & E).
  subst run. rewrite E. clear E. simpl default.
  destruct (rounding_method_code rounding_method) as [code|] eqn:Ecode.
  - destruct (call_apply_rounding_run code nA nb T sh (fst (f A' b'))
                (snd (f A' b')) s1) as (rv & s2 & -> & Htr2).
    simpl. apply rounding_allowed_code in Ecode.
    repeat split; eauto.
    + intros code' H'. apply rounding_allowed_code in H', Ecode.
      assert (code' = code) by congruence. subst code'.
      rewrite Htr2, last_snoc. eauto.
    + exfalso. eapply H; eauto.
    + exfalso. eapply H; eauto.
    + exfalso. eapply H; eauto.
  - simpl. repeat split; eauto.
    + intros [r Hr]. discriminate.
    + intros [code H]. apply rounding_allowed_code in H. congruence.
    + intros code H. apply rounding_allowed_code in H. congruence.
    + rewrite (new_events_app s s1 _ Htr). reflexivity.
Qed.

(** ** Unknown method strings *)

Lemma supplier_unbound (fast : bool) :
  supplier_bound fast = false -> fast = true /\ fast_inner_ball_impl = None.
Proof.
  destruct fast; simpl; [|discriminate].
  intros H. apply bool_decide_eq_false in H. split; [reflexivity|].
  destruct fast_inner_ball_impl; [|reflexivity]. exfalso. apply H. eauto.
Qed.

Lemma new_events_same_trace (s s' : state cpp_class) :
  trace (env s') = trace (env s) -> new_events s s' = [].
Proof. intros E. apply new_events_app. now rewrite app_nil_r. Qed.




(** ** The two MMCS drivers *)

Lemma fast_mmcs_loop_with (fuel : nat) (new_A : memview2) (new_b : memview1)
    (c : buffer) (r : float) (s : state cpp_class) :
  fast_mmcs_loop fuel new_A new_b c r s =
  mmcs_loop_with fast_inner_ball fuel new_A new_b c r s.
Proof.
  revert c r s. induction fuel as [|fuel IH]; intros c r s; [reflexivity|].
  simpl. unfold mbind, M_bind, bind.
  destruct (call_mmcs_step c r s) as [[[check N]| |] s1]; try reflexivity.
  unfold converged. destruct (_ && _); [reflexivity|].
  destruct (call_get_polytope_as_matrices new_A new_b s1) as [[[]| |] s2];
    try reflexivity.
  destruct (fast_inner_ball new_A new_b s2) as [[[c1 r1]| |] s3];
    try reflexivity.
  apply IH.
Qed.

Lemma slow_mmcs_loop_with (fuel : nat) (new_A : memview2) (new_b : memview1)
    (c : buffer) (r : float) (s : state cpp_class) :
  slow_mmcs_loop fuel new_A new_b c r s =
  mmcs_loop_with slow_inner_ball fuel new_A new_b c r s.
Proof.
  revert c r s. induction fuel as [|fuel IH]; intros c r s; [reflexivity|].
  simpl. unfold mbind, M_bind, bind.
  destruct (call_mmcs_step c r s) as [[[check N]| |] s1]; try reflexivity.
  unfold converged. destruct (_ && _); [reflexivity|].
  destruct (call_get_polytope_as_matrices new_A new_b s1) as [[[]| |] s2];
    try reflexivity.
  destruct (slow_inner_ball new_A new_b s2) as [[[c1 r1]| |] s3];
    try reflexivity.
  apply IH.
Qed.

Lemma bind_ext {X Y} (m : M X) (k k' : X -> M Y) (s : state cpp_class) :
  (forall x s1, k x s1 = k' x s1) -> bind m k s = bind m k' s.
Proof.
  intros H. unfold bind. destruct (m s) as [[x| |] s1]; [apply H|..];
    reflexivity.
Qed.

Lemma bind_ret {X Y : Type} (x : X) (k : X -> M Y) (s : state cpp_class) :
  bind (ret x) k s = k x s.
Proof. reflexivity. Qed.

Lemma fast_mmcs_with (fuel : nat) (ess : option Z)
    (psrf_check parallelism : option bool) (num_threads : option Z)
    (s : state cpp_class) :
  fast_mmcs fuel ess psrf_check parallelism num_threads s =
  mmcs_with fast_inner_ball fuel ess psrf_check parallelism num_threads s.
Proof.
  unfold fast_mmcs, mmcs_with. unfold mbind, M_bind.
  apply bind_ext. intros this s0. destruct (shape2 (_A this)) as [m n].
  cbv zeta. simpl fst. simpl snd.
  do 4 (apply bind_ext; intros).
  unfold mmcs_args_fit, as_c_int, as_c_uint.
  destruct (c_int_fits (default 1000 ess)); [|reflexivity].
  destruct (c_uint_fits _); [|reflexivity].
  destruct (c_int_fits (default 2 num_threads)); [|reflexivity].
  simpl andb. cbv iota.
  repeat (rewrite bind_ret; cbv beta).
  repeat (apply bind_ext; intros).
  match goal with
  | |- (let '(_, _) := ?p in _) _ = _ => destruct p as [c r]
  end.
  unfold bind at 1 3. rewrite fast_mmcs_loop_with. reflexivity.
Qed.

Lemma slow_mmcs_with (fuel : nat) (ess : option Z)
    (psrf_check parallelism : option bool) (num_threads : option Z)
    (s : state cpp_class) :
  slow_mmcs fuel ess psrf_check parallelism num_threads s =
  mmcs_with slow_inner_ball fuel ess psrf_check parallelism num_threads s.
Proof.
  unfold slow_mmcs, mmcs_with. unfold mbind, M_bind.
  apply bind_ext. intros this s0. destruct (shape2 (_A this)) as [m n].
  cbv zeta. simpl fst. simpl snd.
  do 4 (apply bind_ext; intros).
  unfold mmcs_args_fit, as_c_int, as_c_uint.
  destruct (c_int_fits (default 1000 ess)); [|reflexivity].
  destruct (c_uint_fits _); [|reflexivity].
  destruct (c_int_fits (default 2 num_threads)); [|reflexivity].
  simpl andb. cbv iota.
  repeat (rewrite bind_ret; cbv beta).
  repeat (apply bind_ext; intros).
  match goal with
  | |- (let '(_, _) := ?p in _) _ = _ => destruct p as [c r]
  end.
  unfold bind at 1 3. rewrite slow_mmcs_loop_with. reflexivity.
Qed.

(** ** The phase loop *)

Lemma call_mmcs_step_run (c : buffer) (r : float) (s : state cpp_class) :
  exists check N cpp,
    call_mmcs_step c r s =
      (Return (check, N),
       set_cpp cpp (add_event (Call_mmcs_step c r check N) s)).
Proof.
  unfold call_mmcs_step. unfold_M.
  destruct (cpp_mmcs_step _ _ _) as [[check N] cpp]. eauto.
Qed.

Lemma call_get_polytope_as_matrices_run (new_A : memview2)
    (new_b : memview1) (s : state cpp_class) :
  base2 new_A <> base1 new_b ->
  exists s',
    call_get_polytope_as_matrices new_A new_b s = (Return tt, s') /\
    trace (env s') =
      trace (env s) ++
      [Call_get_polytope_as_matrices
         (nd2_data (deref2 (heap (env s')) new_A))
         (nd1_data (deref1 (heap (env s')) new_b))].
Proof.
  intros Hne. unfold call_get_polytope_as_matrices. unfold_M.
  destruct (cpp_get_polytope_as_matrices _ _ _) as [[A1 b1] cpp].
  eexists. split; [reflexivity|]. simpl.
  now rewrite (list_lookup_alter_ne _ _ (base1 new_b) (base2 new_A))
    by congruence.
Qed.

Lemma lookup_overwritten (h : list buffer) (l : nat) (d : buffer) :
  default [] (alter (fun old => overwrite old d) l h !! l) =
  overwrite (default [] (h !! l)) d.
Proof.
  rewrite list_lookup_alter_eq. unfold buffer in *.
  destruct (h !! l); simpl; [reflexivity|].
  unfold overwrite. simpl. now rewrite drop_nil.
Qed.

Lemma mmcs_loop_with_native (fast : bool) (f : inner_ball_fn) (fuel : nat)
    (new_A : memview2) (new_b : memview1) (c : buffer) (r : float)
    (s : state cpp_class) :
  supplier_impl fast = Some f ->
  base2 new_A <> base1 new_b ->
  exists evs res s',
    mmcs_loop_with (inner_ball_of fast) fuel new_A new_b c r s =
      (match res with Some N => Return N | None => OutOfFuel end, s') /\
    trace (env s') = trace (env s) ++ evs /\
    native_phases fast f (shape2 new_A) (shape1 new_b) fuel
      (polytope_cpp (self s))
      (default [] (heap (env s) !! base2 new_A))
      (default [] (heap (env s) !! base1 new_b)) c r evs res.
Proof.
  intros Hf Hne. revert c r s.
  induction fuel as [|fuel IH]; intros c r s.
  { exists [], None, s. simpl. rewrite app_nil_r.
    repeat split. constructor. }
  simpl. unfold mbind, M_bind, bind.
  unfold call_mmcs_step at 1. unfold_M.
  destruct (cpp_mmcs_step (polytope_cpp (self s)) c r)
    as [[check N] cpp1] eqn:Estep.
  destruct (converged check) eqn:Ec.
  { eexists [Call_mmcs_step c r check N], (Some N), _.
    repeat split. eapply native_converged; eauto. }
  unfold call_get_polytope_as_matrices. unfold_M. simpl.
  destruct (cpp_get_polytope_as_matrices cpp1 _ _)
    as [[A_raw b_raw] cpp2] eqn:Eget.
  simpl.
  set (h := heap (env s)) in *.
  set (A1 := overwrite (default [] (h !! base2 new_A)) A_raw).
  set (b1 := overwrite (default [] (h !! base1 new_b)) b_raw).
  set (h2 := alter _ (base1 new_b) (alter _ (base2 new_A) h)).
  assert (HA : default [] (h2 !! base2 new_A) = A1).
  { subst h2 A1. rewrite list_lookup_alter_ne by congruence.
    apply lookup_overwritten. }
  assert (Hb : default [] (h2 !! base1 new_b) = b1).
  { subst h2 b1. rewrite lookup_overwritten.
    now rewrite list_lookup_alter_ne by congruence. }
  rewrite lookup_overwritten. fold A1. rewrite Hb.
  unfold inner_ball_of at 1.
  rewrite (inner_ball_run fast f) by exact Hf. cbv zeta.
  unfold deref2, deref1. simpl. rewrite HA, Hb.
  destruct (f _ _) as [c1 r1] eqn:Ef. simpl fst. simpl snd.
  match goal with
  | |- context [mmcs_loop_with _ fuel new_A new_b c1 r1 ?s3] =>
      destruct (IH c1 r1 s3) as (evs & res & s' & -> & Htr & Hph)
  end.
  simpl in Htr, Hph. rewrite HA, Hb in Hph.
  eexists (_ :: _ :: _ :: evs), res, s'.
  split; [reflexivity|]. split.
  - rewrite Htr. rewrite <- !app_assoc. reflexivity.
  - eapply native_continue; eauto.
Qed.

Lemma native_phases_phase_trace (fast : bool) (f : inner_ball_fn)
    (shA : nat * nat) (shb fuel : nat) (cpp : HPolytopeCPP)
    (A_now b_now c : buffer) (r : float) (evs : list event)
    (res : option Z) :
  native_phases fast f shA shb fuel cpp A_now b_now c r evs res ->
  phase_trace fast f shA shb fuel c r evs res.
Proof.
  induction 1; [constructor|now constructor|].
  eapply phase_continue; eauto.
Qed.

Lemma mmcs_loop_with_trace (fast : bool) (f : inner_ball_fn) (fuel : nat)
    (new_A : memview2) (new_b : memview1) (c : buffer) (r : float)
    (s : state cpp_class) :
  supplier_impl fast = Some f ->
  base2 new_A <> base1 new_b ->
  exists evs res s',
    mmcs_loop_with (inner_ball_of fast) fuel new_A new_b c r s =
      (match res with Some N => Return N | None => OutOfFuel end, s') /\
    trace (env s') = trace (env s) ++ evs /\
    phase_trace fast f (shape2 new_A) (shape1 new_b) fuel c r evs res.
Proof.
  intros Hf Hne.
  destruct (mmcs_loop_with_native fast f fuel new_A new_b c r s Hf Hne)
    as (evs & res & s' & E & Htr & Hph).
  exists evs, res, s'. repeat split; try assumption.
  eapply native_phases_phase_trace; eauto.
Qed.

Lemma inner_ball_of_run (fast : bool) (f : inner_ball_fn) (vA : memview2)
    (vb : memview1) (s : state cpp_class) :
  supplier_impl fast = Some f ->
  inner_ball_of fast vA vb s =
    let A' := deref2 (heap (env s)) vA in
    let b' := deref1 (heap (env s)) vb in
    (Return (f A' b'),
     add_event (Call_inner_ball fast A' b' (fst (f A' b')) (snd (f A' b'))) s).
Proof. apply inner_ball_run. Qed.

Lemma mmcs_of_flag (fast : bool) (fuel : nat) (ess : option Z)
    (psrf_check parallelism : option bool) (num_threads : option Z)
    (s : state cpp_class) :
  (if fast then fast_mmcs fuel ess psrf_check parallelism num_threads s
   else slow_mmcs fuel ess psrf_check parallelism num_threads s) =
  mmcs_with (inner_ball_of fast) fuel ess psrf_check parallelism
            num_threads s.
Proof.
  destruct fast; [rewrite fast_mmcs_with|rewrite slow_mmcs_with];
    reflexivity.
Qed.

Lemma call_get_mmcs_samples_run (T : memview2) (shift : memview1)
    (samples : memview2) (s : state cpp_class) :
  exists s',
    call_get_mmcs_samples T shift samples s = (Return tt, s') /\
    trace (env s') = trace (env s) ++ [Call_get_mmcs_samples].
Proof.
  unfold call_get_mmcs_samples. unfold_M.
  destruct (cpp_get_mmcs_samples _ _ _ _) as [[[T1 shift1] samples1] cpp].
  eexists. split; reflexivity.
Qed.

(** A driver whose integer arguments do not fit their C slots stops at
    the conversion, after the four allocations and before the native
    object is entered. *)
Lemma mmcs_with_overflow (supplier : memview2 -> memview1 -> M (buffer * float))
    (fuel : nat) (ess : option Z) (psrf_check parallelism : option bool)
    (num_threads : option Z) (s : state cpp_class) :
  mmcs_args_fit (snd (shape2 (_A (self s)))) (default 1000 ess)
                (default 2 num_threads) = false ->
  let run := mmcs_with supplier fuel ess psrf_check parallelism
                       num_threads s in
  fst run = Raise OverflowError /\
  self (snd run) = self s /\
  trace (env (snd run)) = trace (env s) /\
  wall_clock (env (snd run)) = wall_clock (env s) /\
  exists zs, heap (env (snd run)) = heap (env s) ++ zs /\ length zs = 4%nat.
Proof.
  intros Hfit run. subst run. unfold mmcs_with. unfold_M.
  destruct (shape2 (_A (self s))) as [m n] eqn:Esh. simpl in Hfit.
  rewrite np_zeros2_run by lia. rewrite np_zeros1_run by lia.
  rewrite np_zeros2_run by lia. rewrite np_zeros1_run by lia.
  rewrite Hfit. simpl. repeat split.
  eexists [_; _; _; _]. rewrite <- !app_assoc. split; reflexivity.
Qed.

(** The whole run of a driver: initialisation, first inner ball, the
    phases on the native object as initialised and on the two zeroed
    arrays, and what follows the loop. *)
Lemma mmcs_with_native (fast : bool) (f : inner_ball_fn) (fuel : nat)
    (ess : option Z) (psrf_check parallelism : option bool)
    (num_threads : option Z) (s : state cpp_class) :
  supplier_impl fast = Some f ->
  valid_object s ->
  mmcs_args_fit (snd (shape2 (_A (self s)))) (default 1000 ess)
                (default 2 num_threads) = true ->
  let run := mmcs_with (inner_ball_of fast) fuel ess psrf_check parallelism
                       num_threads s in
  let A0 := deref2 (heap (env s)) (_A (self s)) in
  let b0 := deref1 (heap (env s)) (_b (self s)) in
  let m := fst (shape2 (_A (self s))) in
  let n := snd (shape2 (_A (self s))) in
  let cpp0 :=
    cpp_mmcs_initialize (polytope_cpp (self s)) (Z.of_nat n)
      (default 1000 ess) (Z.b2z (default true psrf_check))
      (Z.b2z (default false parallelism)) (default 2 num_threads) in
  exists evs res tail,
    new_events s (snd run) =
      Call_mmcs_initialize (Z.of_nat n)
        (default 1000 ess) (Z.b2z (default true psrf_check))
        (Z.b2z (default false parallelism)) (default 2 num_threads)
      :: Call_inner_ball fast A0 b0 (fst (f A0 b0)) (snd (f A0 b0))
      :: evs ++ tail /\
    native_phases fast f (shape2 (_A (self s))) m fuel cpp0
                  (replicate (m * n) 0%float) (replicate m 0%float)
                  (fst (f A0 b0)) (snd (f A0 b0)) evs res /\
    (res = None <-> fst run = OutOfFuel) /\
    ((exists x, fst run = Return x) -> exists N, res = Some N) /\
    (res = None -> tail = []) /\
    existsb is_mmcs_step tail = false.
Proof.
  intros Hf [HvA Hvb] Hfit run A0 b0 m n cpp0. subst run.
  unfold mmcs_with. unfold_M.
  subst m n cpp0.
  destruct (shape2 (_A (self s))) as [m n] eqn:Esh. simpl fst. simpl snd.
  simpl in Hfit.
  rewrite np_zeros2_run by lia. rewrite np_zeros1_run by lia.
  rewrite np_zeros2_run by lia. rewrite np_zeros1_run by lia.
  rewrite Hfit.
  unfold call_mmcs_initialize. unfold_M.
  rewrite (inner_ball_of_run fast f) by exact Hf. cbv zeta.
  match goal with
  | |- context [add_event (Call_inner_ball _ ?A' ?b' _ _) ?s0] =>
      replace A' with A0; [replace b' with b0|]; [set (s5 := s0)|..]
  end.
  2:{ subst b0. unfold deref1. simpl.
      repeat (rewrite lookup_app_l
                by (first [assumption | rewrite !length_app; simpl; lia])).
      reflexivity. }
  2:{ subst A0. unfold deref2. simpl.
      repeat (rewrite lookup_app_l
                by (first [assumption | rewrite !length_app; simpl; lia])).
      reflexivity. }
  destruct (f A0 b0) as [c0 r0] eqn:Ef. simpl fst. simpl snd.
  set (s6 := add_event _ s5).
  match goal with
  | |- context [mmcs_loop_with _ fuel ?nA ?nb c0 r0 s6] =>
      destruct (mmcs_loop_with_native fast f fuel nA nb c0 r0 s6 Hf)
        as (evs & res & s7 & -> & Htr & Hph)
  end.
  { simpl. rewrite length_app. simpl. lia. }
  simpl shape2 in Hph. simpl shape1 in Hph. rewrite !Nat2Z.id in Hph.
  match type of Hph with
  | native_phases _ _ _ _ _ ?cpp ?A ?b _ _ _ _ =>
      change cpp with
        (cpp_mmcs_initialize (polytope_cpp (self s)) (Z.of_nat n)
           (default 1000 ess) (Z.b2z (default true psrf_check))
           (Z.b2z (default false parallelism)) (default 2 num_threads))
        in Hph;
      replace A with (replicate (m * n) 0%float) in Hph;
      [replace b with (replicate m 0%float) in Hph|]
  end.
  2:{ simpl. unfold buffer in *. rewrite <- !app_assoc. simpl.
      rewrite length_app. simpl. rewrite lookup_app_r by lia.
      replace (_ + 1 - _)%nat with 1%nat by lia. simpl.
      now rewrite Nat2Z.id. }
  2:{ simpl. unfold buffer in *. rewrite <- !app_assoc. simpl.
      rewrite lookup_app_r by lia. rewrite Nat.sub_diag. simpl.
      f_equal. lia. }
  assert (Htr6 : trace (env s6) = trace (env s) ++
            [Call_mmcs_initialize (Z.of_nat n) (default 1000 ess)
               (Z.b2z (default true psrf_check))
               (Z.b2z (default false parallelism)) (default 2 num_threads);
             Call_inner_ball fast A0 b0 c0 r0]).
  { subst s6 s5. simpl. now rewrite <- app_assoc. }
  destruct res as [N|].
  - destruct (Z.ltb_spec N 0) as [Hneg|Hpos].
    + rewrite np_zeros2_negative by lia. simpl snd. simpl fst.
      exists evs, (Some N), []. rewrite app_nil_r.
      split; [apply new_events_app; rewrite Htr, Htr6, <- app_assoc;
              reflexivity|].
      split; [exact Hph|]. repeat split; try discriminate; eauto.
    + rewrite np_zeros2_run by lia.
      match goal with
      | |- context [call_get_mmcs_samples ?T ?sh ?sm ?s0] =>
          destruct (call_get_mmcs_samples_run T sh sm s0)
            as (s8 & -> & Htr8)
      end.
      match goal with
      | |- context [call_get_polytope_as_matrices ?nA ?nb s8] =>
          destruct (call_get_polytope_as_matrices_run nA nb s8)
            as (s9 & -> & Htr9)
      end.
      { simpl. rewrite length_app. simpl. lia. }
      simpl snd. simpl fst.
      eexists evs, (Some N), [_; _].
      split; [apply new_events_app; rewrite Htr9, Htr8; simpl;
              rewrite Htr, Htr6, <- !app_assoc; reflexivity|].
      split; [exact Hph|]. repeat split; try discriminate; eauto.
  - simpl snd. simpl fst. exists evs, None, []. rewrite app_nil_r.
    split; [apply new_events_app; rewrite Htr, Htr6, <- app_assoc;
            reflexivity|].
    split; [exact Hph|]. repeat split; try discriminate; eauto.
    intros [x Hx]. discriminate.
Qed.

Lemma mmcs_with_trace (fast : bool) (f : inner_ball_fn) (fuel : nat)
    (ess : option Z) (psrf_check parallelism : option bool)
    (num_threads : option Z) (s : state cpp_class) :
  supplier_impl fast = Some f ->
  valid_object s ->
  mmcs_args_fit (snd (shape2 (_A (self s)))) (default 1000 ess)
                (default 2 num_threads) = true ->
  let run := mmcs_with (inner_ball_of fast) fuel ess psrf_check parallelism
                       num_threads s in
  let A0 := deref2 (heap (env s)) (_A (self s)) in
  let b0 := deref1 (heap (env s)) (_b (self s)) in
  exists evs res tail,
    new_events s (snd run) =
      Call_mmcs_initialize (Z.of_nat (snd (shape2 (_A (self s)))))
        (default 1000 ess) (Z.b2z (default true psrf_check))
        (Z.b2z (default false parallelism)) (default 2 num_threads)
      :: Call_inner_ball fast A0 b0 (fst (f A0 b0)) (snd (f A0 b0))
      :: evs ++ tail /\
    phase_trace fast f (shape2 (_A (self s))) (fst (shape2 (_A (self s))))
                fuel (fst (f A0 b0)) (snd (f A0 b0)) evs res /\
    (res = None <-> fst run = OutOfFuel) /\
    ((exists x, fst run = Return x) -> exists N, res = Some N) /\
    (res = None -> tail = []) /\
    existsb is_mmcs_step tail = false.
Proof.
  intros Hf Hv Hfit run A0 b0.
  pose proof (mmcs_with_native fast f fuel ess psrf_check parallelism
                num_threads s Hf Hv Hfit) as Hrun.
  cbv zeta in Hrun. destruct Hrun as (evs & res & tail & Hev & Hph & H).
  exists evs, res, tail. split; [exact Hev|].
  split; [|exact H]. eapply native_phases_phase_trace; eauto.
Qed.

End Properties.

(** ** What a phase trace says about the loop *)

Section PhaseTrace.
Variables (fast : bool) (f : inner_ball_fn) (shA : nat * nat) (shb : nat).

(** The loop exits with [N] exactly when its last event is an [mmcs_step]
    that answered a converged status (and [N]). *)
Lemma phase_trace_exit fuel c r evs res :
  phase_trace fast f shA shb fuel c r evs res ->
  forall N,
    res = Some N <->
    exists c' r' status,
      last evs = Some (Call_mmcs_step c' r' status N) /\
      converged status = true.
Proof.
  induction 1 as [c r|fuel c r status N Hc
                 |fuel c r status N A1 b1 c1 r1 evs res Hc Hf Hph IH];
    intros N'.
  - split; [discriminate|]. intros (? & ? & ? & Hl & _). discriminate.
  - split.
    + intros [= <-]. eauto.
    + intros (? & ? & ? & [= -> -> -> ->] & _). reflexivity.
  - rewrite IH. clear IH.
    assert (Hl : forall x y z, last (x :: y :: z :: evs) =
              match evs with [] => Some z | _ => last evs end).
    { intros x y z. destruct evs; reflexivity. }
    rewrite Hl. destruct evs as [|e evs'].
    + inversion Hph. split.
      * intros (? & ? & ? & Hl' & _). discriminate.
      * intros (? & ? & ? & Hl' & _). discriminate.
    + reflexivity.
Qed.

(** Every [mmcs_step] but the last answered a status outside (1, 2). *)
Lemma phase_trace_before_exit fuel c r evs res :
  phase_trace fast f shA shb fuel c r evs res ->
  Forall not_converged_step (removelast evs).
Proof.
  induction 1 as [c r|fuel c r status N Hc
                 |fuel c r status N A1 b1 c1 r1 evs res Hc Hf Hph IH];
    simpl; try constructor.
  - exact Hc.
  - constructor; [exact I|].
    destruct evs as [|e evs']; [constructor|].
    constructor; [exact I|exact IH].
Qed.

(** Out of fuel means [fuel] whole phases were run. *)
Lemma phase_trace_fuel fuel c r evs :
  phase_trace fast f shA shb fuel c r evs None ->
  length (List.filter is_mmcs_step evs) = fuel.
Proof.
  remember None as res eqn:Eres.
  induction 1 as [c r|fuel c r status N Hc
                 |fuel c r status N A1 b1 c1 r1 evs res Hc Hf Hph IH];
    try discriminate; [reflexivity|].
  subst res. simpl. now rewrite (IH eq_refl).
Qed.

(** After an [mmcs_step] that answered a status outside (1, 2): the
    polytope is fetched, its inner ball computed, and the loop goes on from
    there. *)
Lemma phase_trace_after_step fuel c0 r0 evs res pre c r status N post :
  phase_trace fast f shA shb fuel c0 r0 evs res ->
  evs = pre ++ Call_mmcs_step c r status N :: post ->
  converged status = false ->
  exists A1 b1 c1 r1 post' fuel',
    post = Call_get_polytope_as_matrices A1 b1
           :: Call_inner_ball fast {| nd2_shape := shA; nd2_data := A1 |}
                              {| nd1_shape := shb; nd1_data := b1 |} c1 r1
           :: post' /\
    f {| nd2_shape := shA; nd2_data := A1 |}
      {| nd1_shape := shb; nd1_data := b1 |} = (c1, r1) /\
    phase_trace fast f shA shb fuel' c1 r1 post' res.
Proof.
  intros Hph. revert pre.
  induction Hph as [c0 r0|fuel c0 r0 status0 N0 Hc
                 |fuel c0 r0 status0 N0 A1 b1 c1 r1 evs res Hc Hf Hph IH];
    intros pre E Hnc.
  - destruct pre; discriminate.
  - destruct pre as [|e pre]; simpl in E.
    + simplify_eq. congruence.
    + destruct pre; discriminate.
  - destruct pre as [|e1 pre]; simpl in E.
    + simplify_eq. eauto 10.
    + destruct pre as [|e2 pre]; [discriminate|].
      destruct pre as [|e3 pre]; [discriminate|].
      simpl in E. simplify_eq. eauto.
Qed.

End PhaseTrace.

Lemma app_split_at {X} (p : X -> bool) (l1 l2 pre post : list X) (x : X) :
  l1 ++ l2 = pre ++ x :: post ->
  p x = true -> existsb p l2 = false ->
  exists post1, l1 = pre ++ x :: post1 /\ post = post1 ++ l2.
Proof.
  revert pre. induction l1 as [|y l1 IH]; intros pre E Hx Hl2.
  - simpl in E. subst l2. rewrite existsb_app in Hl2. simpl in Hl2.
    rewrite Hx in Hl2. simpl in Hl2. now rewrite orb_true_r in Hl2.
  - destruct pre as [|z pre]; simpl in E.
    + simplify_eq. exists l1. split; reflexivity.
    + injection E as -> E. destruct (IH pre E Hx Hl2) as (post1 & -> & ->).
      exists post1. split; reflexivity.
Qed.

Section Agreement.
Context {cpp_class : HPolytopeCPP_class} {inner_ball : InnerBall}.

Lemma agree_ret {X} (x : X) : agree (ret x) (ret x).
Proof. intros s1 s2 H. split; [reflexivity|exact H]. Qed.

Lemma agree_raise {X} (e : exn) : agree (@raise _ X e) (raise e).
Proof. intros s1 s2 H. split; [reflexivity|exact H]. Qed.

Lemma agree_out_of_fuel {X} : agree (@out_of_fuel _ X) out_of_fuel.
Proof. intros s1 s2 H. split; [reflexivity|exact H]. Qed.

Lemma agree_bind {X Y} (m1 m2 : M X) (k1 k2 : X -> M Y) :
  agree m1 m2 -> (forall x, agree (k1 x) (k2 x)) ->
  agree (bind m1 k1) (bind m2 k2).
Proof.
  intros Hm Hk s1 s2 H. unfold bind.
  destruct (Hm s1 s2 H) as [Ho Hs].
  destruct (m1 s1) as [[x| |] t1], (m2 s2) as [[y| |] t2]; simpl in *;
    try discriminate; try (split; [congruence|exact Hs]).
  injection Ho as <-. now apply Hk.
Qed.

Lemma agree_get_self : agree (@get_self cpp_class) get_self.
Proof. intros s1 s2 H. split; [|exact H]. simpl. f_equal. apply H. Qed.

Lemma agree_peek (l : nat) : agree (@peek cpp_class l) (peek l).
Proof.
  intros s1 s2 H. split; [|exact H]. simpl.
  destruct H as (_ & -> & _). reflexivity.
Qed.

Lemma agree_poke (l : nat) (d : buffer) :
  agree (@poke cpp_class l d) (poke l d).
Proof.
  intros s1 s2 (Hself & Hheap & Hclock & Htr). simpl. rewrite Hheap.
  repeat split; assumption.
Qed.

Lemma agree_alloc (d : buffer) : agree (@alloc cpp_class d) (alloc d).
Proof.
  intros s1 s2 (Hself & Hheap & Hclock & Htr). simpl. rewrite Hheap.
  repeat split; assumption.
Qed.

Lemma agree_log (e1 e2 : event) :
  unflag e1 = unflag e2 -> agree (@log cpp_class e1) (log e2).
Proof.
  intros He s1 s2 (Hself & Hheap & Hclock & Htr). simpl.
  repeat split; try assumption. simpl.
  rewrite !fmap_app. simpl. now rewrite Htr, He.
Qed.

Lemma agree_put_cpp (c : HPolytopeCPP) : agree (put_cpp c) (put_cpp c).
Proof.
  intros s1 s2 (Hself & Hheap & Hclock & Htr). simpl.
  repeat split; try assumption. simpl. now rewrite Hself.
Qed.

Lemma agree_read2 (v : memview2) : agree (@read2 cpp_class v) (read2 v).
Proof.
  intros s1 s2 H. split; [|exact H]. simpl.
  destruct H as (_ & -> & _). reflexivity.
Qed.

Lemma agree_read1 (v : memview1) : agree (@read1 cpp_class v) (read1 v).
Proof.
  intros s1 s2 H. split; [|exact H]. simpl.
  destruct H as (_ & -> & _). reflexivity.
Qed.

Ltac agree_seq :=
  unfold mbind, M_bind;
  repeat first
    [ apply agree_bind; [|intros ?]
    | apply agree_ret | apply agree_raise | apply agree_out_of_fuel
    | apply agree_get_self | apply agree_peek | apply agree_poke
    | apply agree_alloc | apply agree_put_cpp | apply agree_read2
    | apply agree_read1 | apply agree_log; reflexivity
    | match goal with
      | |- agree (let '(_, _) := ?p in _) _ => destruct p
      | |- agree (if ?c then _ else _) _ => destruct c
      end ].

Lemma agree_np_zeros2 (r c : Z) : agree (@np_zeros2 cpp_class r c) (np_zeros2 r c).
Proof. unfold np_zeros2. agree_seq. Qed.

Lemma agree_np_zeros1 (n : Z) : agree (@np_zeros1 cpp_class n) (np_zeros1 n).
Proof. unfold np_zeros1. agree_seq. Qed.

Lemma agree_as_c_int (z : Z) : agree (@as_c_int cpp_class z) (as_c_int z).
Proof. unfold as_c_int. agree_seq. Qed.

Lemma agree_as_c_uint (z : Z) : agree (@as_c_uint cpp_class z) (as_c_uint z).
Proof. unfold as_c_uint. agree_seq. Qed.

Lemma agree_call_mmcs_initialize d ess psrf_check parallelism num_threads :
  agree (call_mmcs_initialize d ess psrf_check parallelism num_threads)
        (call_mmcs_initialize d ess psrf_check parallelism num_threads).
Proof. unfold call_mmcs_initialize. agree_seq. Qed.

Lemma agree_call_mmcs_step c r :
  agree (call_mmcs_step c r) (call_mmcs_step c r).
Proof. unfold call_mmcs_step. agree_seq. Qed.

Lemma agree_call_get_mmcs_samples T shift samples :
  agree (call_get_mmcs_samples T shift samples)
        (call_get_mmcs_samples T shift samples).
Proof. unfold call_get_mmcs_samples. agree_seq. Qed.

Lemma agree_call_get_polytope_as_matrices new_A new_b :
  agree (call_get_polytope_as_matrices new_A new_b)
        (call_get_polytope_as_matrices new_A new_b).
Proof. unfold call_get_polytope_as_matrices. agree_seq. Qed.

(** The two supplier calls agree when both names are bound to one
    function. *)
Lemma agree_inner_ball (vA : memview2) (vb : memview1) :
  fast_inner_ball_impl = Some slow_inner_ball_impl ->
  agree (fast_inner_ball vA vb) (slow_inner_ball vA vb).
Proof.
  intros E. unfold fast_inner_ball, slow_inner_ball. rewrite E. agree_seq.
Qed.

Lemma agree_mmcs_loops fuel new_A new_b c r :
  fast_inner_ball_impl = Some slow_inner_ball_impl ->
  agree (fast_mmcs_loop fuel new_A new_b c r)
        (slow_mmcs_loop fuel new_A new_b c r).
Proof.
  intros E. revert c r.
  induction fuel as [|fuel IH]; intros c r; [apply agree_out_of_fuel|].
  simpl. unfold mbind, M_bind.
  apply agree_bind; [apply agree_call_mmcs_step|]. intros [check N].
  destruct (_ && _); [apply agree_ret|].
  apply agree_bind; [apply agree_call_get_polytope_as_matrices|]. intros _.
  apply agree_bind; [now apply agree_inner_ball|]. intros [c1 r1].
  apply IH.
Qed.

Lemma agree_mmcs fuel ess psrf_check parallelism num_threads :
  fast_inner_ball_impl = Some slow_inner_ball_impl ->
  agree (fast_mmcs fuel ess psrf_check parallelism num_threads)
        (slow_mmcs fuel ess psrf_check parallelism num_threads).
Proof.
  intros E. unfold fast_mmcs, slow_mmcs. unfold mbind, M_bind. cbv zeta.
  apply agree_bind; [apply agree_get_self|]. intros this.
  apply agree_bind; [apply agree_np_zeros2|]. intros new_A.
  apply agree_bind; [apply agree_np_zeros1|]. intros new_b.
  apply agree_bind; [apply agree_np_zeros2|]. intros T.
  apply agree_bind; [apply agree_np_zeros1|]. intros shift.
  apply agree_bind; [apply agree_as_c_int|]. intros N_ess.
  apply agree_bind; [apply agree_as_c_uint|]. intros d.
  apply agree_bind; [apply agree_as_c_int|]. intros ess'.
  apply agree_bind; [apply agree_as_c_int|]. intros num_threads'.
  apply agree_bind; [apply agree_call_mmcs_initialize|]. intros _.
  apply agree_bind; [now apply agree_inner_ball|]. intros [c r].
  apply agree_bind; [now apply agree_mmcs_loops|]. intros N.
  apply agree_bind; [apply agree_np_zeros2|]. intros samples.
  apply agree_bind; [apply agree_call_get_mmcs_samples|]. intros _.
  apply agree_bind; [apply agree_call_get_polytope_as_matrices|]. intros _.
  apply agree_ret.
Qed.

Lemma same_but_flags_refl (s : state cpp_class) : same_but_flags s s.
Proof. repeat split. Qed.

End Agreement.

Section Drivers.
Context {cpp_class : HPolytopeCPP_class} {inner_ball : InnerBall}.

(** C3.  A run of [fast_mmcs] or [slow_mmcs] (supplier bound, stored views
    valid, [ess] and [num_threads] within the range of a C [int] and
    [n_variables] within that of a C [unsigned int]) consists of
    [mmcs_initialize], the inner ball of the stored polytope, and then
    phases executed one after the other on the native object as
    [mmcs_initialize] left it: each phase is one [mmcs_step] from the
    current start point and radius, whose status and count are what the
    native [mmcs_step] answers on the object as the calls so far left it; a
    status outside (1, 2) is followed by [get_polytope_as_matrices], which
    stores what the native object hands out into the two arrays the driver
    allocated (zeroed at first), and by the inner ball of exactly the
    arrays just fetched, whose answer is the start point and radius of the
    next [mmcs_step]; the loop exits exactly at the first status strictly
    between 1 and 2, and otherwise runs for as many phases as it is
    given. *)
Theorem mmcs_phases_run_in_sequence (fast : bool) (f : inner_ball_fn)
    (fuel : nat) (ess : option Z) (psrf_check parallelism : option bool)
    (num_threads : option Z) (s : state cpp_class) :
  supplier_impl fast = Some f ->
  valid_object s ->
  mmcs_args_fit (snd (shape2 (_A (self s)))) (default 1000 ess)
                (default 2 num_threads) = true ->
  let run :=
    if fast then fast_mmcs fuel ess psrf_check parallelism num_threads s
    else slow_mmcs fuel ess psrf_check parallelism num_threads s in
  let A0 := deref2 (heap (env s)) (_A (self s)) in
  let b0 := deref1 (heap (env s)) (_b (self s)) in
  let shA := shape2 (_A (self s)) in
  let cpp0 :=
    cpp_mmcs_initialize (polytope_cpp (self s)) (Z.of_nat (snd shA))
      (default 1000 ess) (Z.b2z (default true psrf_check))
      (Z.b2z (default false parallelism)) (default 2 num_threads) in
  exists evs res tail,
    new_events s (snd run) =
      Call_mmcs_initialize (Z.of_nat (snd shA)) (default 1000 ess)
        (Z.b2z (default true psrf_check))
        (Z.b2z (default false parallelism)) (default 2 num_threads)
      :: Call_inner_ball fast A0 b0 (fst (f A0 b0)) (snd (f A0 b0))
      :: evs ++ tail /\
    native_phases fast f shA (fst shA) fuel cpp0
                  (replicate (fst shA * snd shA) 0%float)
                  (replicate (fst shA) 0%float)
                  (fst (f A0 b0)) (snd (f A0 b0)) evs res /\
    existsb is_mmcs_step tail = false /\
    (forall N,
       res = Some N <->
       exists c r status,
         last evs = Some (Call_mmcs_step c r status N) /\
         converged status = true) /\
    Forall not_converged_step (removelast evs) /\
    (res = None <-> fst run = OutOfFuel) /\
    (res = None ->
       length (List.filter is_mmcs_step evs) = fuel /\ tail = []) /\
    ((exists x, fst run = Return x) -> exists N, res = Some N).
Proof.
  intros Hf Hv Hfit run A0 b0 shA cpp0. subst run. rewrite mmcs_of_flag.
  pose proof (mmcs_with_native fast f fuel ess psrf_check parallelism
                num_threads s Hf Hv Hfit) as Hrun.
  cbv zeta in Hrun.
  destruct Hrun
    as (evs & res & tail & Hev & Hnat & Hfuel & Hret & Htail & Hstep).
  pose proof (native_phases_phase_trace _ _ _ _ _ _ _ _ _ _ _ _ Hnat) as Hph.
  exists evs, res, tail.
  split; [exact Hev|]. split; [exact Hnat|]. split; [exact Hstep|].
  split; [intros N; eapply phase_trace_exit; exact Hph|].
  split; [eapply phase_trace_before_exit; exact Hph|].
  split; [exact Hfuel|]. split; [|exact Hret].
  intros ->. split; [eapply phase_trace_fuel; exact Hph|now apply Htail].
Qed.

(** C2 (as amended).  A failed status (at least 2, or negative) does not
    end a run of [fast_mmcs] or [slow_mmcs]: like every status outside
    (1, 2) it is followed by [get_polytope_as_matrices], by the inner ball
    of the arrays fetched and, unless the run is cut there, by the next
    [mmcs_step] from that ball. *)
Theorem failed_status_starts_next_phase (fast : bool) (f : inner_ball_fn)
    (fuel : nat) (ess : option Z) (psrf_check parallelism : option bool)
    (num_threads : option Z) (s : state cpp_class) :
  supplier_impl fast = Some f ->
  valid_object s ->
  let run :=
    if fast then fast_mmcs fuel ess psrf_check parallelism num_threads s
    else slow_mmcs fuel ess psrf_check parallelism num_threads s in
  let shA := shape2 (_A (self s)) in
  forall pre c r status N post,
    new_events s (snd run) = pre ++ Call_mmcs_step c r status N :: post ->
    failed status = true ->
    exists A1 b1 c1 r1 rest,
      post = Call_get_polytope_as_matrices A1 b1
             :: Call_inner_ball fast {| nd2_shape := shA; nd2_data := A1 |}
                  {| nd1_shape := fst shA; nd1_data := b1 |} c1 r1
             :: rest /\
      f {| nd2_shape := shA; nd2_data := A1 |}
        {| nd1_shape := fst shA; nd1_data := b1 |} = (c1, r1) /\
      (rest = [] -> fst run = OutOfFuel) /\
      (forall e rest', rest = e :: rest' ->
         exists status' N', e = Call_mmcs_step c1 r1 status' N').
Proof.
  intros Hf Hv run shA pre c r status N post E Hfailed.
  subst run. rewrite mmcs_of_flag in *.
  destruct (mmcs_args_fit (snd (shape2 (_A (self s)))) (default 1000 ess)
                          (default 2 num_threads)) eqn:Hfit.
  2:{ destruct (mmcs_with_overflow (inner_ball_of fast) fuel ess psrf_check
                  parallelism num_threads s Hfit) as (_ & _ & Htr & _).
      rewrite (new_events_same_trace _ _ Htr) in E.
      now destruct pre. }
  destruct (mmcs_with_trace fast f fuel ess psrf_check parallelism
              num_threads s Hf Hv Hfit)
    as (evs & res & tail & Hev & Hph & Hfuel & Hret & Htail & Hstep).
  rewrite Hev in E.
  change (?x :: ?y :: evs ++ tail) with ((x :: y :: evs) ++ tail) in E.
  destruct (app_split_at is_mmcs_step _ _ _ _ _ E eq_refl Hstep)
    as (post1 & E1 & ->).
  destruct pre as [|e1 pre]; [discriminate|].
  destruct pre as [|e2 pre]; [discriminate|].
  simpl in E1. injection E1 as _ _ E1.
  destruct (phase_trace_after_step _ _ _ _ _ _ _ _ _ _ _ _ _ _ _
              Hph E1 (failed_not_converged _ Hfailed))
    as (A1 & b1 & c1 & r1 & post' & fuel' & -> & Hf1 & Hph').
  exists A1, b1, c1, r1, (post' ++ tail).
  split; [reflexivity|]. split; [exact Hf1|]. split.
  - intros Hnil. apply app_eq_nil in Hnil. destruct Hnil as [-> ->].
    inversion Hph'; subst. now apply Hfuel.
  - intros e rest' Hrest. destruct post' as [|e' post''].
    + inversion Hph'; subst. rewrite Htail in Hrest by reflexivity.
      discriminate.
    + simpl in Hrest. injection Hrest as -> _.
      inversion Hph'; subst; eauto.
Qed.

(** C8.  [fast_mmcs] and [slow_mmcs] are one driver over the inner-ball
    supplier: for every argument tuple and every state, [fast_mmcs] is
    [mmcs_with] at [fast_inner_ball] and [slow_mmcs] is [mmcs_with] at
    [slow_inner_ball] (same initialisation, same loop and exit test, same
    five arrays returned).  Hence, where both names are bound to one
    supplier function, the two runs return the same outcome and leave the
    same object, heap and, up to which supplier each event names, trace. *)
Theorem fast_slow_mmcs_one_driver (fuel : nat) (ess : option Z)
    (psrf_check parallelism : option bool) (num_threads : option Z)
    (s : state cpp_class) :
  let fast := fast_mmcs fuel ess psrf_check parallelism num_threads s in
  let slow := slow_mmcs fuel ess psrf_check parallelism num_threads s in
  fast =
    mmcs_with fast_inner_ball fuel ess psrf_check parallelism num_threads s
  /\
  slow =
    mmcs_with slow_inner_ball fuel ess psrf_check parallelism num_threads s
  /\
  (fast_inner_ball_impl = Some slow_inner_ball_impl ->
     fst fast = fst slow /\ same_but_flags (snd fast) (snd slow)).
Proof.
  intros fast slow.
  split; [apply fast_mmcs_with|]. split; [apply slow_mmcs_with|].
  intros E. now apply agree_mmcs, same_but_flags_refl.
Qed.

End Drivers.

(** ** The stored polytope *)

Section Frame.
Context {cpp_class : HPolytopeCPP_class} {inner_ball : InnerBall}.
Variable s0 : state cpp_class.

Lemma stored_kept_refl : stored_kept s0 s0.
Proof. repeat split; auto. Qed.

Lemma keeps_ret {X} (x : X) (Q : X -> Prop) : Q x -> keeps s0 (ret x) Q.
Proof. intros HQ s Hs. split; [exact Hs|]. now intros x' [= <-]. Qed.

Lemma keeps_raise {X} (e : exn) (Q : X -> Prop) : keeps s0 (raise e) Q.
Proof. intros s Hs. split; [exact Hs|]. discriminate. Qed.

Lemma keeps_out_of_fuel {X} (Q : X -> Prop) : keeps s0 out_of_fuel Q.
Proof. intros s Hs. split; [exact Hs|]. discriminate. Qed.

Lemma keeps_bind {X Y} (m : M X) (k : X -> M Y) (Q : X -> Prop)
    (R : Y -> Prop) :
  keeps s0 m Q -> (forall x, Q x -> keeps s0 (k x) R) ->
  keeps s0 (bind m k) R.
Proof.
  intros Hm Hk s Hs. unfold bind.
  destruct (Hm s Hs) as [Hs1 HQ].
  destruct (m s) as [[x| |] s1]; simpl in *.
  - apply (Hk x); auto.
  - split; [exact Hs1|discriminate].
  - split; [exact Hs1|discriminate].
Qed.

Lemma keeps_weaken {X} (m : M X) (Q R : X -> Prop) :
  keeps s0 m Q -> (forall x, Q x -> R x) -> keeps s0 m R.
Proof.
  intros Hm HQR s Hs. destruct (Hm s Hs) as [Hs1 HQ]. split; auto.
Qed.

Lemma keeps_get_self :
  keeps s0 get_self
        (fun this => _A this = _A (self s0) /\ _b this = _b (self s0)).
Proof.
  intros s Hs. split; [exact Hs|]. intros this [= <-].
  destruct Hs as (HA & Hb & _). auto.
Qed.

Lemma keeps_log (e : event) : keeps s0 (log e) (fun _ => True).
Proof. intros s Hs. split; [exact Hs|auto]. Qed.

Lemma keeps_put_cpp (c : HPolytopeCPP) : keeps s0 (put_cpp c) (fun _ => True).
Proof. intros s Hs. split; [exact Hs|auto]. Qed.

Lemma keeps_peek (l : nat) : keeps s0 (peek l) (fun _ => True).
Proof. intros s Hs. split; [exact Hs|auto]. Qed.

Lemma keeps_alloc (d : buffer) : keeps s0 (alloc d) (fresh_for s0).
Proof.
  intros s (HA & Hb & Hlen & Hold). split.
  - repeat split; simpl; auto.
    + rewrite length_app. lia.
    + intros l Hl. rewrite lookup_app_l by lia. auto.
  - intros l [= <-]. exact Hlen.
Qed.

Lemma keeps_poke (l : nat) (d : buffer) :
  fresh_for s0 l -> keeps s0 (poke l d) (fun _ => True).
Proof.
  intros Hl s (HA & Hb & Hlen & Hold). split; [|auto].
  repeat split; simpl; auto.
  - now rewrite length_alter.
  - intros l' Hl'. unfold fresh_for in Hl.
    rewrite list_lookup_alter_ne by lia. auto.
Qed.

Lemma keeps_np_zeros2 (r c : Z) :
  keeps s0 (np_zeros2 r c) (fun v => fresh_for s0 (base2 v)).
Proof.
  unfold np_zeros2. destruct (_ || _); [apply keeps_raise|].
  unfold mbind, M_bind. eapply keeps_bind; [apply keeps_alloc|].
  intros l Hl. now apply keeps_ret.
Qed.

Lemma keeps_np_zeros1 (n : Z) :
  keeps s0 (np_zeros1 n) (fun v => fresh_for s0 (base1 v)).
Proof.
  unfold np_zeros1. destruct (_ <? _)%Z; [apply keeps_raise|].
  unfold mbind, M_bind. eapply keeps_bind; [apply keeps_alloc|].
  intros l Hl. now apply keeps_ret.
Qed.

Lemma keeps_as_c_int (z : Z) : keeps s0 (as_c_int z) (fun _ => True).
Proof.
  unfold as_c_int. destruct (c_int_fits z);
    [now apply keeps_ret|apply keeps_raise].
Qed.

Lemma keeps_as_c_uint (z : Z) : keeps s0 (as_c_uint z) (fun _ => True).
Proof.
  unfold as_c_uint. destruct (c_uint_fits z);
    [now apply keeps_ret|apply keeps_raise].
Qed.

Lemma keeps_np_asarray_scalar (x : float) :
  keeps s0 (np_asarray_scalar x) (fun _ => True).
Proof.
  unfold np_asarray_scalar. unfold mbind, M_bind.
  eapply keeps_bind; [apply keeps_alloc|].
  intros l Hl. now apply keeps_ret.
Qed.

Lemma keeps_read2 (v : memview2) : keeps s0 (read2 v) (fun _ => True).
Proof. intros s Hs. split; [exact Hs|auto]. Qed.

Lemma keeps_read1 (v : memview1) : keeps s0 (read1 v) (fun _ => True).
Proof. intros s Hs. split; [exact Hs|auto]. Qed.

Ltac keeps_prim :=
  first [ apply keeps_get_self | apply keeps_peek | apply keeps_log
        | apply keeps_put_cpp | apply keeps_read2 | apply keeps_read1
        | apply keeps_np_zeros2 | apply keeps_np_zeros1
        | apply keeps_poke; assumption ].

Ltac keeps_seq :=
  unfold mbind, M_bind;
  repeat first
    [ eapply keeps_bind; [solve [keeps_prim]|intros ? ?]
    | match goal with
      | |- keeps _ (let '(_, _) := ?p in _) _ => destruct p
      end
    | apply keeps_ret; exact I
    | apply keeps_raise
    | keeps_prim ].

Lemma keeps_slow_inner_ball (vA : memview2) (vb : memview1) :
  keeps s0 (slow_inner_ball vA vb) (fun _ => True).
Proof. unfold slow_inner_ball. keeps_seq. Qed.

Lemma keeps_fast_inner_ball (vA : memview2) (vb : memview1) :
  keeps s0 (fast_inner_ball vA vb) (fun _ => True).
Proof.
  unfold fast_inner_ball. destruct fast_inner_ball_impl; keeps_seq.
Qed.

Lemma keeps_call_compute_volume vol_method walk_method walk_len epsilon seed :
  keeps s0 (call_compute_volume vol_method walk_method walk_len epsilon seed)
        (fun _ => True).
Proof. unfold call_compute_volume. keeps_seq. Qed.

Lemma keeps_call_apply_sampling walk_len n burn method c r samples :
  fresh_for s0 (base2 samples) ->
  keeps s0 (call_apply_sampling walk_len n burn method c r samples)
        (fun _ => True).
Proof. intros Hs. unfold call_apply_sampling. keeps_seq. Qed.

Lemma keeps_call_mmcs_initialize d ess psrf_check parallelism num_threads :
  keeps s0 (call_mmcs_initialize d ess psrf_check parallelism num_threads)
        (fun _ => True).
Proof. unfold call_mmcs_initialize. keeps_seq. Qed.

Lemma keeps_call_mmcs_step c r :
  keeps s0 (call_mmcs_step c r) (fun _ => True).
Proof. unfold call_mmcs_step. keeps_seq. Qed.

Lemma keeps_call_get_mmcs_samples T shift samples :
  fresh_for s0 (base2 T) -> fresh_for s0 (base1 shift) ->
  fresh_for s0 (base2 samples) ->
  keeps s0 (call_get_mmcs_samples T shift samples) (fun _ => True).
Proof. intros HT Hsh Hs. unfold call_get_mmcs_samples. keeps_seq. Qed.

Lemma keeps_call_get_polytope_as_matrices new_A new_b :
  fresh_for s0 (base2 new_A) -> fresh_for s0 (base1 new_b) ->
  keeps s0 (call_get_polytope_as_matrices new_A new_b) (fun _ => True).
Proof. intros HA Hb. unfold call_get_polytope_as_matrices. keeps_seq. Qed.

Lemma keeps_call_apply_rounding code new_A new_b T shift c r :
  fresh_for s0 (base2 new_A) -> fresh_for s0 (base1 new_b) ->
  fresh_for s0 (base2 T) -> fresh_for s0 (base1 shift) ->
  keeps s0 (call_apply_rounding code new_A new_b T shift c r)
        (fun _ => True).
Proof. intros HA Hb HT Hsh. unfold call_apply_rounding. keeps_seq. Qed.

Lemma keeps_compute_volume md walk_len epsilon vol_method walk_method seed :
  keeps s0 (compute_volume md walk_len epsilon vol_method walk_method seed)
        (fun _ => True).
Proof.
  unfold compute_volume. unfold mbind, M_bind. cbv zeta.
  eapply keeps_bind with (Q := fun _ => True).
  { destruct seed; [apply keeps_as_c_int|now apply keeps_ret]. }
  intros sd _.
  destruct (py_in _ volume_methods); [|apply keeps_raise].
  destruct (py_in _ walk_methods); [|apply keeps_raise].
  eapply keeps_bind; [apply keeps_as_c_int|]. intros wl _.
  apply keeps_call_compute_volume.
Qed.

Lemma keeps_generate_samples method n burn walk_len fast_mode :
  keeps s0 (generate_samples method n burn walk_len fast_mode)
        (fun _ => True).
Proof.
  unfold generate_samples. unfold mbind, M_bind.
  eapply keeps_bind; [apply keeps_get_self|]. intros this _.
  eapply keeps_bind; [apply keeps_np_zeros2|]. intros samples Hs.
  eapply keeps_bind.
  { destruct fast_mode;
      [apply keeps_fast_inner_ball|apply keeps_slow_inner_ball]. }
  intros [c r] _.
  eapply keeps_bind with (Q := fun _ => True).
  { destruct (sampling_method_code method);
      [now apply keeps_ret|apply keeps_raise]. }
  intros code _.
  eapply keeps_bind; [apply keeps_as_c_int|]. intros wl _.
  eapply keeps_bind; [apply keeps_as_c_int|]. intros np _.
  eapply keeps_bind; [apply keeps_as_c_int|]. intros nb _.
  eapply keeps_bind; [now apply keeps_call_apply_sampling|].
  intros _ _. now apply keeps_ret.
Qed.

Lemma keeps_rounding rounding_method fast_mode :
  keeps s0 (rounding rounding_method fast_mode) (fun _ => True).
Proof.
  unfold rounding. unfold mbind, M_bind. cbv zeta.
  eapply keeps_bind; [apply keeps_get_self|]. intros this _.
  eapply keeps_bind; [apply keeps_np_zeros2|]. intros new_A HA.
  eapply keeps_bind; [apply keeps_np_zeros1|]. intros new_b Hb.
  eapply keeps_bind; [apply keeps_np_zeros2|]. intros T HT.
  eapply keeps_bind; [apply keeps_np_zeros1|]. intros shift Hsh.
  eapply keeps_bind.
  { destruct (default false fast_mode);
      [apply keeps_fast_inner_ball|apply keeps_slow_inner_ball]. }
  intros [c r] _.
  eapply keeps_bind with (Q := fun _ => True).
  { destruct (rounding_method_code _);
      [now apply keeps_ret|apply keeps_raise]. }
  intros code _.
  eapply keeps_bind; [now apply keeps_call_apply_rounding|].
  intros round_value _.
  eapply keeps_bind; [apply keeps_np_asarray_scalar|].
  intros boxed _. now apply keeps_ret.
Qed.

Lemma keeps_fast_mmcs_loop fuel new_A new_b c r :
  fresh_for s0 (base2 new_A) -> fresh_for s0 (base1 new_b) ->
  keeps s0 (fast_mmcs_loop fuel new_A new_b c r) (fun _ => True).
Proof.
  intros HA Hb. revert c r.
  induction fuel as [|fuel IH]; intros c r; [apply keeps_out_of_fuel|].
  simpl. unfold mbind, M_bind.
  eapply keeps_bind; [apply keeps_call_mmcs_step|]. intros [check N] _.
  destruct (_ && _); [now apply keeps_ret|].
  eapply keeps_bind; [now apply keeps_call_get_polytope_as_matrices|].
  intros _ _.
  eapply keeps_bind; [apply keeps_fast_inner_ball|]. intros [c1 r1] _.
  apply IH.
Qed.

Lemma keeps_slow_mmcs_loop fuel new_A new_b c r :
  fresh_for s0 (base2 new_A) -> fresh_for s0 (base1 new_b) ->
  keeps s0 (slow_mmcs_loop fuel new_A new_b c r) (fun _ => True).
Proof.
  intros HA Hb. revert c r.
  induction fuel as [|fuel IH]; intros c r; [apply keeps_out_of_fuel|].
  simpl. unfold mbind, M_bind.
  eapply keeps_bind; [apply keeps_call_mmcs_step|]. intros [check N] _.
  destruct (_ && _); [now apply keeps_ret|].
  eapply keeps_bind; [now apply keeps_call_get_polytope_as_matrices|].
  intros _ _.
  eapply keeps_bind; [apply keeps_slow_inner_ball|]. intros [c1 r1] _.
  apply IH.
Qed.

Lemma keeps_fast_mmcs fuel ess psrf_check parallelism num_threads :
  keeps s0 (fast_mmcs fuel ess psrf_check parallelism num_threads)
        (fun _ => True).
Proof.
  unfold fast_mmcs. unfold mbind, M_bind. cbv zeta.
  eapply keeps_bind; [apply keeps_get_self|]. intros this _.
  eapply keeps_bind; [apply keeps_np_zeros2|]. intros new_A HA.
  eapply keeps_bind; [apply keeps_np_zeros1|]. intros new_b Hb.
  eapply keeps_bind; [apply keeps_np_zeros2|]. intros T HT.
  eapply keeps_bind; [apply keeps_np_zeros1|]. intros shift Hsh.
  eapply keeps_bind; [apply keeps_as_c_int|]. intros N_ess _.
  eapply keeps_bind; [apply keeps_as_c_uint|]. intros d _.
  eapply keeps_bind; [apply keeps_as_c_int|]. intros ess' _.
  eapply keeps_bind; [apply keeps_as_c_int|]. intros num_threads' _.
  eapply keeps_bind; [apply keeps_call_mmcs_initialize|]. intros _ _.
  eapply keeps_bind; [apply keeps_fast_inner_ball|]. intros [c r] _.
  eapply keeps_bind; [now apply keeps_fast_mmcs_loop|]. intros N _.
  eapply keeps_bind; [apply keeps_np_zeros2|]. intros samples Hs.
  eapply keeps_bind; [now apply keeps_call_get_mmcs_samples|]. intros _ _.
  eapply keeps_bind; [now apply keeps_call_get_polytope_as_matrices|].
  intros _ _. now apply keeps_ret.
Qed.

Lemma keeps_slow_mmcs fuel ess psrf_check parallelism num_threads :
  keeps s0 (slow_mmcs fuel ess psrf_check parallelism num_threads)
        (fun _ => True).
Proof.
  unfold slow_mmcs. unfold mbind, M_bind. cbv zeta.
  eapply keeps_bind; [apply keeps_get_self|]. intros this _.
  eapply keeps_bind; [apply keeps_np_zeros2|]. intros new_A HA.
  eapply keeps_bind; [apply keeps_np_zeros1|]. intros new_b Hb.
  eapply keeps_bind; [apply keeps_np_zeros2|]. intros T HT.
  eapply keeps_bind; [apply keeps_np_zeros1|]. intros shift Hsh.
  eapply keeps_bind; [apply keeps_as_c_int|]. intros N_ess _.
  eapply keeps_bind; [apply keeps_as_c_uint|]. intros d _.
  eapply keeps_bind; [apply keeps_as_c_int|]. intros ess' _.
  eapply keeps_bind; [apply keeps_as_c_int|]. intros num_threads' _.
  eapply keeps_bind; [apply keeps_call_mmcs_initialize|]. intros _ _.
  eapply keeps_bind; [apply keeps_slow_inner_ball|]. intros [c r] _.
  eapply keeps_bind; [now apply keeps_slow_mmcs_loop|]. intros N _.
  eapply keeps_bind; [apply keeps_np_zeros2|]. intros samples Hs.
  eapply keeps_bind; [now apply keeps_call_get_mmcs_samples|]. intros _ _.
  eapply keeps_bind; [now apply keeps_call_get_polytope_as_matrices|].
  intros _ _. now apply keeps_ret.
Qed.

Lemma stored_kept_perform md (c : call) (s : state cpp_class) :
  stored_kept s0 s -> stored_kept s0 (perform md c s).
Proof.
  intros Hs. destruct c; simpl.
  - now apply keeps_compute_volume.
  - now apply keeps_generate_samples.
  - now apply keeps_rounding.
  - now apply keeps_fast_mmcs.
  - now apply keeps_slow_mmcs.
Qed.

Lemma stored_kept_perform_all md (cs : list call) (s : state cpp_class) :
  stored_kept s0 s -> stored_kept s0 (perform_all md cs s).
Proof.
  revert s. induction cs as [|c cs IH]; intros s Hs; [exact Hs|].
  simpl. apply IH. now apply stored_kept_perform.
Qed.

End Frame.

Section Object.
Context {cpp_class : HPolytopeCPP_class} {inner_ball : InnerBall}.

Lemma construct_built (A0 : memview2) (b0 : memview1) (w : world)
    (s : state cpp_class) :
  construct A0 b0 w = Some s ->
  _A (self s) = A0 /\ _b (self s) = b0 /\ heap (env s) = heap w /\
  wall_clock (env s) = wall_clock w.
Proof.
  unfold construct, cinit. intros H.
  destruct (negb _); [discriminate|]. destruct (_ || _); [discriminate|].
  destruct (cpp_new _ _ _ _); [discriminate|].
  injection H as <-. repeat split.
Qed.

(** C9.  Whatever series of [compute_volume], [generate_samples],
    [rounding], [fast_mmcs] and [slow_mmcs] calls is performed on an
    [HPolytope] built from two arrays of the heap, [A()], [b()] and
    [dimension()] afterwards answer the views passed at construction, and
    those views still hold the values they held then: the operations write
    into arrays they allocate themselves only. *)
Theorem stored_polytope_never_mutated (md : module_state) (A0 : memview2)
    (b0 : memview1) (w : world) (s : state cpp_class) (calls : list call) :
  (base2 A0 < length (heap w))%nat ->
  (base1 b0 < length (heap w))%nat ->
  construct A0 b0 w = Some s ->
  let s' := perform_all md calls s in
  fst (A s') = Return A0 /\
  fst (b s') = Return b0 /\
  fst (dimension s') = Return (snd (shape2 A0)) /\
  fst (A_value s') = Return (deref2 (heap w) A0) /\
  fst (b_value s') = Return (deref1 (heap w) b0).
Proof.
  intros HA Hb Hc s'.
  destruct (stored_kept_perform_all s md calls s (stored_kept_refl s))
    as (EA & Eb & Hlen & Hold).
  fold s' in EA, Eb, Hlen, Hold.
  destruct (construct_built _ _ _ _ Hc) as (HA0 & Hb0 & Hheap & _).
  rewrite HA0 in EA. rewrite Hb0 in Eb. rewrite Hheap in Hlen, Hold.
  unfold A_value, b_value, A, b, dimension, read2, read1, deref2, deref1.
  unfold mbind, M_bind, bind, get_self, ret. simpl.
  rewrite EA, Eb. rewrite !Hold by assumption. repeat split.
Qed.

(** The import succeeds exactly when the clock it reads fits the
    [npy_int32] slot of the default. *)
Lemma import_module_run (w : world) :
  import_module w =
    (if c_int_fits (wall_clock w)
     then Return {| compute_volume_seed_default := wall_clock w |}
     else Raise OverflowError,
     {| heap := heap w; wall_clock := wall_clock w;
        trace := trace w ++ [Call_time] |}).
Proof.
  unfold import_module, get_time_seed.
  destruct (c_int_fits (wall_clock w)); reflexivity.
Qed.

(** C10.  When the import succeeds (the clock it reads fits the
    [npy_int32] slot of the default; otherwise the import itself raises
    [OverflowError]), the default of [compute_volume]'s [seed] is the clock
    read once by the import; a call that omits [seed] reads no clock and
    hands the native object that same value, whatever the time of the
    call: two such calls with equal other arguments add the same events
    (one [compute_volume] event with that seed when the methods are listed
    and [walk_len] fits a C [int], none otherwise), and on equal native
    objects return the same result. *)
Theorem default_seed_fixed_at_import (w w' : world) (md : module_state)
    (walk_len : option Z) (epsilon : option float)
    (vol_method walk_method : option string) (s1 s2 : state cpp_class) :
  import_module w = (Return md, w') ->
  let run1 := compute_volume md walk_len epsilon vol_method walk_method
                             None s1 in
  let run2 := compute_volume md walk_len epsilon vol_method walk_method
                             None s2 in
  let vm := default "sequence_of_balls"%string vol_method in
  let wm := default "uniform_ball"%string walk_method in
  c_int_fits (wall_clock w) = true /\
  trace w' = trace w ++ [Call_time] /\
  compute_volume_seed_default md = wall_clock w /\
  new_events s1 (snd run1) = new_events s2 (snd run2) /\
  existsb (fun e => match e with Call_time => true | _ => false end)
          (new_events s1 (snd run1)) = false /\
  (vm ∈ volume_allowed -> wm ∈ walk_allowed ->
   c_int_fits (default 2 walk_len) = true ->
     new_events s1 (snd run1) =
       [Call_compute_volume (encode vm) (encode wm) (default 2 walk_len)
          (default 0x1.999999999999ap-5%float epsilon) (wall_clock w)]) /\
  (~ (vm ∈ volume_allowed /\ wm ∈ walk_allowed /\
      c_int_fits (default 2 walk_len) = true) ->
     new_events s1 (snd run1) = [] /\ exists e, fst run1 = Raise e) /\
  (polytope_cpp (self s1) = polytope_cpp (self s2) -> fst run1 = fst run2).
Proof.
  intros Himp run1 run2 vm wm.
  rewrite import_module_run in Himp.
  destruct (c_int_fits (wall_clock w)) eqn:Hclk; [|discriminate].
  injection Himp as <- <-. simpl.
  split; [reflexivity|]. split; [reflexivity|]. split; [reflexivity|].
  set (md := {| compute_volume_seed_default := wall_clock w |}) in *.
  set (wl := default 2 walk_len).
  set (ok := bool_decide (vm ∈ volume_allowed) &&
             bool_decide (wm ∈ walk_allowed) && c_int_fits wl).
  assert (Hfst : forall s : state cpp_class,
    fst (compute_volume md walk_len epsilon vol_method walk_method None s) =
      if bool_decide (vm ∈ volume_allowed) then
        if bool_decide (wm ∈ walk_allowed) then
          if c_int_fits wl then
            Return (fst (cpp_compute_volume (polytope_cpp (self s))
                           (encode vm) (encode wm) wl
                           (default 0x1.999999999999ap-5%float epsilon)
                           (wall_clock w)))
          else Raise OverflowError
        else Raise (Exception_format walk_not_implemented (encode wm)
                                     walk_methods)
      else Raise (Exception_format volume_not_implemented (encode vm)
                                   volume_methods)).
  { intros s. rewrite compute_volume_run. fold vm wm wl. simpl.
    destruct (bool_decide (vm ∈ volume_allowed)); [|reflexivity].
    destruct (bool_decide (wm ∈ walk_allowed)); [|reflexivity].
    destruct (c_int_fits wl); reflexivity. }
  assert (Hev : forall s : state cpp_class,
    new_events s
      (snd (compute_volume md walk_len epsilon vol_method walk_method
                           None s)) =
      if ok
      then [Call_compute_volume (encode vm) (encode wm) wl
              (default 0x1.999999999999ap-5%float epsilon) (wall_clock w)]
      else []).
  { intros s. rewrite compute_volume_run. fold vm wm wl. simpl. subst ok.
    destruct (bool_decide (vm ∈ volume_allowed));
      [|now apply new_events_same_trace].
    destruct (bool_decide (wm ∈ walk_allowed));
      [|now apply new_events_same_trace].
    destruct (c_int_fits wl); [|now apply new_events_same_trace].
    now apply new_events_app. }
  subst run1 run2. rewrite !Hev.
  split; [reflexivity|]. split; [destruct ok; reflexivity|].
  split; [|split].
  - intros Hv Hw Hwl. subst ok. rewrite Hwl.
    now rewrite !bool_decide_eq_true_2 by assumption.
  - intros Hnot. rewrite Hfst. subst ok.
    repeat case_bool_decide; simpl; eauto.
    destruct (c_int_fits wl); simpl; eauto. tauto.
  - intros Hcpp. rewrite !Hfst, Hcpp. reflexivity.
Qed.

(** C4 (as amended).  [HPolytope(A, b)] compares the row count of [A]
    with the length of [b] nowhere.  For every pair of views, of matching
    dimensions or not, whose shape fits the C [int] slots and whose buffers
    hold the doubles the native constructor reads
    ([n_hyperplanes * n_variables] at [A], [n_hyperplanes] at [b]),
    construction enters the native constructor once, with the two pointers
    and the shape of [A], and ends as that constructor does: with an object
    that stores the two views, or with the exception it throws.  The length
    of [b] is not read. *)
Theorem construction_checks_no_dimension (A0 : memview2) (b0 : memview1)
    (w : world) :
  let m := fst (shape2 A0) in
  let n := snd (shape2 A0) in
  let bufA := default [] (heap w !! base2 A0) in
  let bufb := default [] (heap w !! base1 b0) in
  c_int_fits (Z.of_nat m) = true ->
  c_int_fits (Z.of_nat n) = true ->
  (m * n <= length bufA)%nat ->
  (m <= length bufb)%nat ->
  cinit A0 b0 w =
    (match cpp_new bufA bufb (Z.of_nat m) (Z.of_nat n) with
     | inr cpp => Built {| polytope_cpp := cpp; _A := A0; _b := b0 |}
     | inl e => Raises e
     end,
     {| heap := heap w; wall_clock := wall_clock w;
        trace := trace w ++ [Call_HPolytopeCPP bufA bufb (Z.of_nat m)
                                               (Z.of_nat n)] |}).
Proof.
  intros m n bufA bufb Hm Hn HA Hb. unfold cinit.
  fold m n bufA bufb. rewrite Hm, Hn. simpl.
  destruct (Nat.ltb_spec (length bufA) (m * n)) as [Hlt|_]; [lia|].
  destruct (Nat.ltb_spec (length bufb) m) as [Hlt|_]; [lia|]. simpl.
  destruct (cpp_new bufA bufb (Z.of_nat m) (Z.of_nat n)); reflexivity.
Qed.

End Object.

(** ** Runs on the scripted object *)

Section Runs.
Import Script.

Lemma start_is_constructed (script : list float) :
  construct (cpp_class := core script) view_A view_b w0
    = Some (start script).
Proof. reflexivity. Qed.

Lemma start_valid (script : list float) : valid_object (start script).
Proof. split; simpl; lia. Qed.

Example converged_one_and_a_half : converged 1.5 = true.
Proof. reflexivity. Qed.

Example not_converged_at_the_bounds :
  converged 1 = false /\ converged 2 = false /\ converged nan = false.
Proof. repeat split. Qed.

Example import_at_w0 :
  import_module w0 =
    (Return imported,
     {| heap := heap w0; wall_clock := 1700000000; trace := [Call_time] |}).
Proof. reflexivity. Qed.

(** From 19 January 2038 on, the import itself fails. *)
Example import_in_2038 :
  fst (import_module w_2038) = Raise OverflowError.
Proof. reflexivity. Qed.

(** Imported at 1700000000, called then and an hour later: the seed handed
    to the native object is 1700000000 both times. *)
Example same_default_seed_an_hour_later :
  let md := imported in
  let at_once := compute_volume md None None None None None (start []) in
  let after := compute_volume md None None None None None (later []) in
  wall_clock (env (later [])) = 1700003600 /\
  new_events (start []) (snd at_once) =
    [Call_compute_volume (encode "sequence_of_balls") (encode "uniform_ball")
       2 0x1.999999999999ap-5%float 1700000000] /\
  new_events (later []) (snd after) = new_events (start []) (snd at_once).
Proof. vm_compute. repeat split. Qed.


(** C2, counterexample: statuses 2 and -1 are failed statuses, yet after
    each of them [slow_mmcs] runs another phase, and it returns once a
    status in (1, 2) arrives. *)
Lemma slow_mmcs_goes_on_after_failed_status :
  let s := start [2; -1; 1.5]%float in
  let run := slow_mmcs (inner_ball := without_gurobi) 5 None None None None
                       s in
  failed 2 = true /\ failed (-1) = true /\
  List.filter is_mmcs_step (new_events s (snd run)) =
    [Call_mmcs_step [0; 0]%float 1%float 2%float 1;
     Call_mmcs_step [0; 0]%float 1%float (-1)%float 2;
     Call_mmcs_step [0; 0]%float 1%float 1.5%float 3] /\
  stops_at_failed_status (new_events s (snd run)) = false /\
  fst run =
    Return ({| base2 := 2; shape2 := (4%nat, 2%nat) |},
            {| base1 := 3; shape1 := 4 |},
            {| base2 := 4; shape2 := (2%nat, 2%nat) |},
            {| base1 := 5; shape1 := 2 |},
            {| base2 := 6; shape2 := (2%nat, 3%nat) |}).
Proof. vm_compute. repeat split. Qed.

(** C4, counterexample: a matrix of four rows and a vector of three
    entries construct an [HPolytope]. *)
Lemma construction_accepts_mismatched_dimensions :
  fst (shape2 view_A) = 4%nat /\ shape1 view_b3 = 3%nat /\
  cinit (cpp_class := core []) view_A view_b3 w0 =
    (Built {| polytope_cpp := (([], 0) : @HPolytopeCPP (core []));
              _A := view_A; _b := view_b3 |},
     {| heap := heap w0; wall_clock := wall_clock w0;
        trace := [Call_HPolytopeCPP square_A square_b 4 2] |}).
Proof. repeat split. Qed.

(** The construction theorem at the square, dimensions matching. *)
Lemma construction_checks_no_dimension_witness :
  cinit (cpp_class := core []) view_A view_b w0 =
    (Built {| polytope_cpp := (([], 0) : @HPolytopeCPP (core []));
              _A := view_A; _b := view_b |},
     {| heap := heap w0; wall_clock := wall_clock w0;
        trace := [Call_HPolytopeCPP square_A square_b 4 2] |}).
Proof.
  apply (construction_checks_no_dimension (cpp_class := core []) view_A
           view_b w0); [reflexivity|reflexivity|simpl; lia|simpl; lia].
Defined.

(** The rounding theorem at the square, slow supplier. *)
Lemma rounding_accepts_exactly_witness :
  supplier_bound (inner_ball := without_gurobi) false = true /\
  fst (rounding (inner_ball := without_gurobi) (Some "max_ellipsoid"%string)
                None (start []))
    = Raise (RuntimeError "Uknown rounding method").
Proof.
  split; [reflexivity|].
  apply (rounding_accepts_exactly (inner_ball := without_gurobi)
           "john_position" None (start [])).
  reflexivity.
Defined.

(** Three billiard-walk samples of the square, fast supplier. *)
Lemma generate_samples_shape_witness :
  exists samples s',
    generate_samples (inner_ball := with_gurobi) "billiard_walk" 3 0 1 true
                     (start []) = (Return samples, s') /\
    shape2 samples = (3%nat, 2%nat).
Proof.
  destruct (generate_samples_shape (inner_ball := with_gurobi)
              "billiard_walk" 3 3 0 1 true (start []))
    as (n & samples & s' & data & c & r & Hd & Hrun & Hsh & _).
  - apply sampling_allowed_code. reflexivity.
  - lia.
  - reflexivity.
  - reflexivity.
  - reflexivity.
  - reflexivity.
  - split; simpl; lia.
  - exists samples, s'. split; [exact Hrun|].
    rewrite Hsh. injection Hd as <-. reflexivity.
Defined.

(** The volume theorem at the square: the default methods are listed, an
    unlisted walk method raises. *)
Lemma compute_volume_allow_lists_witness :
  fst (compute_volume imported None None None None (Some 42) (start []))
    = Return 1%float /\
  compute_volume imported (Some 10) None None (Some "hit_and_run"%string)
                 None (start []) =
    (Raise (Exception_format walk_not_implemented (encode "hit_and_run")
                             walk_methods), start []).
Proof.
  split.
  - destruct (compute_volume_allow_lists imported None None None None
                (Some 42) (start [])) as (_ & _ & _ & Hok).
    + intros given [= <-]. reflexivity.
    + reflexivity.
    + rewrite Hok; [reflexivity|..];
        apply (bool_decide_unpack _); vm_compute; exact I.
  - destruct (compute_volume_allow_lists imported (Some 10) None None
                (Some "hit_and_run"%string) None (start []))
      as (_ & _ & Hwalk & _).
    + intros given [=].
    + reflexivity.
    + apply Hwalk; [apply (bool_decide_unpack _); vm_compute; exact I|].
      intros H. apply (bool_decide_pack _) in H. revert H. vm_compute. exact id.
Defined.

(** The default seed of a module imported at [w0]. *)
Lemma default_seed_fixed_at_import_witness :
  compute_volume_seed_default imported = 1700000000 /\
  new_events (start []) (snd (compute_volume imported None None None None
                                             None (start []))) =
    [Call_compute_volume (encode "sequence_of_balls") (encode "uniform_ball")
       2 0x1.999999999999ap-5%float 1700000000].
Proof.
  destruct (default_seed_fixed_at_import w0 _ imported None None None None
              (start []) (later []) import_at_w0)
    as (_ & _ & Hseed & _ & _ & Hev & _).
  split; [exact Hseed|].
  apply Hev; [..|reflexivity]; apply (bool_decide_unpack _); vm_compute; exact I.
Defined.

(** A run of [slow_mmcs] whose first status asks for another phase. *)
Lemma mmcs_phases_run_in_sequence_witness :
  let s := start [0.5; 1.5]%float in
  exists evs res tail,
    new_events s (snd (slow_mmcs (inner_ball := without_gurobi) 5 None None
                                 None None s)) =
      Call_mmcs_initialize 2 1000 1 0 2
      :: Call_inner_ball false
           {| nd2_shape := (4%nat, 2%nat); nd2_data := square_A |}
           {| nd1_shape := 4%nat; nd1_data := square_b |}
           [0%float; 0%float] 1%float
      :: evs ++ tail /\
    native_phases false origin_ball (4%nat, 2%nat) 4 5
                  (([0.5; 1.5]%float, 0)
                   : @HPolytopeCPP (core [0.5; 1.5]%float))
                  (replicate 8 0%float) (replicate 4 0%float)
                  [0%float; 0%float] 1%float evs res.
Proof.
  intros s.
  destruct (mmcs_phases_run_in_sequence (inner_ball := without_gurobi)
              false origin_ball 5 None None None None s eq_refl
              (start_valid _) eq_refl)
    as (evs & res & tail & Hev & Hph & _).
  exists evs, res, tail. split; [exact Hev|exact Hph].
Defined.

(** A run of [slow_mmcs] whose first status is 2: the events after that
    [mmcs_step] (the fourth event of the run on) open the next phase. *)
Lemma failed_status_starts_next_phase_witness :
  let s := start [2; 1.5]%float in
  let evs := new_events s (snd (slow_mmcs (inner_ball := without_gurobi) 5
                                          None None None None s)) in
  exists A1 b1 c1 r1 rest status' N',
    drop 3 evs =
      Call_get_polytope_as_matrices A1 b1
      :: Call_inner_ball false
           {| nd2_shape := (4%nat, 2%nat); nd2_data := A1 |}
           {| nd1_shape := 4%nat; nd1_data := b1 |} c1 r1
      :: Call_mmcs_step c1 r1 status' N' :: rest.
Proof.
  intros s evs.
  destruct (failed_status_starts_next_phase (inner_ball := without_gurobi)
              false origin_ball 5 None None None None s eq_refl
              (start_valid _) (take 2 evs) [0; 0]%float 1%float 2%float 1
              (drop 3 evs))
    as (A1 & b1 & c1 & r1 & rest & Hpost & _ & _ & Hnext).
  - vm_compute. reflexivity.
  - reflexivity.
  - destruct rest as [|e rest'].
    + exfalso. revert Hpost. vm_compute. discriminate.
    + destruct (Hnext e rest' eq_refl) as (status' & N' & ->).
      exists A1, b1, c1, r1, rest', status', N'. exact Hpost.
Defined.

(** Five operations in a row on the square. *)
Lemma stored_polytope_never_mutated_witness :
  let md := imported in
  let calls :=
    [Rounding None None; Generate_samples "cdhr" 3 0 1 false;
     Slow_mmcs 5 None None None None;
     Compute_volume None None None None None;
     Fast_mmcs 5 None None None None] in
  let s' := perform_all (inner_ball := without_gurobi) md calls
                        (start [0.5; 1.5]%float) in
  fst (A_value s') =
    Return {| nd2_shape := (4%nat, 2%nat); nd2_data := square_A |} /\
  fst (b_value s') = Return {| nd1_shape := 4%nat; nd1_data := square_b |} /\
  fst (dimension s') = Return 2%nat.
Proof.
  intros md calls s'.
  destruct (stored_polytope_never_mutated (inner_ball := without_gurobi)
              md view_A view_b w0 (start [0.5; 1.5]%float) calls)
    as (_ & _ & Hd & HA & Hb).
  - simpl. lia.
  - simpl. lia.
  - apply start_is_constructed.
  - repeat split; assumption.
Defined.

End Runs.

(** * Further properties *)

Section Outcomes.
Context {cpp_class : HPolytopeCPP_class} {inner_ball : InnerBall}.

Ltac run_M :=
  unfold mbind, M_bind, bind, mret, M_ret, ret, raise, out_of_fuel, log,
    peek, poke, alloc, get_self, put_cpp in *.

Lemma call_apply_sampling_returns walk_len n burn code c r samples
    (s : state cpp_class) :
  exists x s', call_apply_sampling walk_len n burn code c r samples s
               = (Return x, s').
Proof.
  unfold call_apply_sampling. run_M.
  destruct (cpp_apply_sampling _ _ _ _ _ _ _ _) as [[x d] cpp]. eauto.
Qed.

Lemma supplier_bound_cases (fast : bool) :
  (supplier_bound fast = true /\ exists f, supplier_impl fast = Some f) \/
  (supplier_bound fast = false /\ fast = true /\ fast_inner_ball_impl = None).
Proof.
  destruct (supplier_bound fast) eqn:E.
  - left. split; [reflexivity|]. now apply supplier_bound_impl.
  - right. split; [reflexivity|]. now apply supplier_unbound.
Qed.

(** The outcome of [generate_samples], by what goes wrong first. *)
Lemma generate_samples_fst (method : string)
    (number_of_points number_of_points_to_burn walk_len : Z)
    (fast_mode : bool) (s : state cpp_class) :
  fst (generate_samples method number_of_points number_of_points_to_burn
                        walk_len fast_mode s) =
  if (number_of_points <? 0)%Z then Raise negative_dimensions
  else if supplier_bound fast_mode then
    match sampling_method_code method with
    | Some _ =>
        if c_int_fits walk_len && c_int_fits number_of_points
           && c_int_fits number_of_points_to_burn
        then Return {| base2 := length (heap (env s));
                       shape2 := (Z.to_nat number_of_points,
                                  snd (shape2 (_A (self s)))) |}
        else Raise OverflowError
    | None => Raise (RuntimeError "Uknown MCMC sampling method")
    end
  else Raise (NameError "fast_inner_ball").
Proof.
  unfold generate_samples. run_M.
  destruct (Z.ltb_spec number_of_points 0) as [Hneg|Hpos].
  { now rewrite np_zeros2_negative by lia. }
  rewrite np_zeros2_run by lia.
  destruct (supplier_bound_cases fast_mode)
    as [[-> [f Hf]]|(-> & -> & Hnone)].
  - rewrite (inner_ball_run fast_mode f) by exact Hf. cbv zeta.
    match goal with
    | |- context [add_event (Call_inner_ball _ ?A' ?b' _ _) ?s0] =>
        set (A1 := A'); set (b1 := b'); set (s1 := s0)
    end.
    destruct (f A1 b1) as [c r]. simpl fst at 2. simpl snd.
    destruct (sampling_method_code method) as [code|]; [|reflexivity].
    unfold as_c_int. run_M.
    destruct (c_int_fits walk_len); [|reflexivity].
    destruct (c_int_fits number_of_points); [|reflexivity].
    destruct (c_int_fits number_of_points_to_burn); [|reflexivity].
    match goal with
    | |- context [call_apply_sampling ?a ?b ?c0 ?d ?e ?g ?h ?t] =>
        destruct (call_apply_sampling_returns a b c0 d e g h t)
          as (x & s' & ->)
    end.
    simpl. now rewrite Nat2Z.id.
  - now rewrite fast_inner_ball_unbound by exact Hnone.
Qed.

(** X1.  For a [number_of_points] within the range of a C [int], what
    [generate_samples] answers is decided in this order: a negative
    [number_of_points] raises [ValueError] (from [np.zeros]); otherwise an
    unbound [fast_inner_ball] in fast mode raises [NameError]; otherwise an
    unknown method raises [RuntimeError]; otherwise a [walk_len] or a
    [number_of_points_to_burn] outside the range of a C [int] raises
    [OverflowError] at the native call; otherwise the call returns.  Each
    outcome occurs in exactly its case. *)
Theorem generate_samples_outcome (method : string)
    (number_of_points number_of_points_to_burn walk_len : Z)
    (fast_mode : bool) (s : state cpp_class) :
  c_int_fits number_of_points = true ->
  let out := fst (generate_samples method number_of_points
                    number_of_points_to_burn walk_len fast_mode s) in
  let fit := c_int_fits walk_len && c_int_fits number_of_points_to_burn in
  (out = Raise negative_dimensions <-> (number_of_points < 0)%Z) /\
  (out = Raise (NameError "fast_inner_ball") <->
     (0 <= number_of_points)%Z /\ supplier_bound fast_mode = false) /\
  (out = Raise (RuntimeError "Uknown MCMC sampling method") <->
     (0 <= number_of_points)%Z /\ supplier_bound fast_mode = true /\
     sampling_method_code method = None) /\
  (out = Raise OverflowError <->
     (0 <= number_of_points)%Z /\ supplier_bound fast_mode = true /\
     is_Some (sampling_method_code method) /\ fit = false) /\
  ((exists samples, out = Return samples) <->
     (0 <= number_of_points)%Z /\ supplier_bound fast_mode = true /\
     is_Some (sampling_method_code method) /\ fit = true).
Proof.
  intros HN out fit. subst out fit. rewrite generate_samples_fst.
  rewrite HN. unfold negative_dimensions.
  destruct (Z.ltb_spec number_of_points 0) as [Hneg|Hpos];
    [|destruct (supplier_bound fast_mode);
      [destruct (sampling_method_code method) as [code|];
       [destruct (c_int_fits walk_len),
                 (c_int_fits number_of_points_to_burn)|]|]];
    simpl; repeat split; intros;
    repeat match goal with
           | H : _ /\ _ |- _ => destruct H
           | H : exists _, _ |- _ => destruct H
           | H : is_Some None |- _ => destruct H
           end;
    try congruence; try lia; eauto.
Qed.

Lemma rounding_fst_unbound (rounding_method : option string)
    (fast_mode : option bool) (s : state cpp_class) :
  supplier_bound (default false fast_mode) = false ->
  fst (rounding rounding_method fast_mode s)
    = Raise (NameError "fast_inner_ball").
Proof.
  intros Hb. destruct (supplier_unbound _ Hb) as [Hfast Hnone].
  unfold rounding. run_M. rewrite Hfast.
  rewrite np_zeros2_run by lia. rewrite np_zeros1_run by lia.
  rewrite np_zeros2_run by lia. rewrite np_zeros1_run by lia.
  now rewrite fast_inner_ball_unbound by exact Hnone.
Qed.

Lemma rounding_fst_bound (rounding_method : option string)
    (fast_mode : option bool) (s : state cpp_class) :
  supplier_bound (default false fast_mode) = true ->
  match rounding_method_code
          (default "john_position"%string rounding_method) with
  | Some _ => exists r, fst (rounding rounding_method fast_mode s) = Return r
  | None => fst (rounding rounding_method fast_mode s)
            = Raise (RuntimeError "Uknown rounding method")
  end.
Proof.
  intros Hb. destruct (supplier_bound_impl _ Hb) as [f Hf].
  destruct (rounding_run rounding_method fast_mode f s Hf)
    as (nA & nb & T & sh & s1 & A' & b' & _ & _ & ->).
  destruct (rounding_method_code _) as [code|]; [|reflexivity].
  destruct (call_apply_rounding_run code nA nb T sh (fst (f A' b'))
              (snd (f A' b')) s1) as (rv & s2 & -> & _).
  eauto.
Qed.

(** X2.  What [rounding] answers is decided in this order: an unbound
    [fast_inner_ball] in fast mode raises [NameError], whatever the method
    string; otherwise an unknown method raises [RuntimeError]; otherwise
    the call returns.  Each outcome occurs in exactly its case. *)
Theorem rounding_outcome (rounding_method : option string)
    (fast_mode : option bool) (s : state cpp_class) :
  let out := fst (rounding rounding_method fast_mode s) in
  let code := rounding_method_code
                (default "john_position"%string rounding_method) in
  let bound := supplier_bound (default false fast_mode) in
  (out = Raise (NameError "fast_inner_ball") <-> bound = false) /\
  (out = Raise (RuntimeError "Uknown rounding method") <->
     bound = true /\ code = None) /\
  ((exists r, out = Return r) <-> bound = true /\ is_Some code).
Proof.
  intros out code bound. subst out.
  destruct bound eqn:Hb; subst bound.
  - pose proof (rounding_fst_bound rounding_method fast_mode s Hb) as H.
    fold code in H. destruct code as [c|].
    + destruct H as [r ->]. repeat split; intros;
        repeat match goal with
               | H : _ /\ _ |- _ => destruct H
               | H : exists _, _ |- _ => destruct H
               end; try congruence; eauto.
    + rewrite H. repeat split; intros;
        repeat match goal with
               | H : _ /\ _ |- _ => destruct H
               | H : exists _, _ |- _ => destruct H
               | H : is_Some None |- _ => destruct H
               end; try congruence; eauto.
  - rewrite (rounding_fst_unbound _ _ _ Hb). repeat split; intros;
      repeat match goal with
             | H : _ /\ _ |- _ => destruct H
             | H : exists _, _ |- _ => destruct H
             end; try congruence; eauto.
Qed.

(** X3.  Where [gurobipy] is not importable, [fast_mmcs] (called with
    [ess] and [num_threads] within the range of a C [int]) raises
    [NameError] at its first inner-ball call, that is after it has
    allocated its four arrays and entered the native [mmcs_initialize]:
    the native object is left re-initialised and no phase is run. *)
Theorem fast_mmcs_without_gurobi (fuel : nat) (ess : option Z)
    (psrf_check parallelism : option bool) (num_threads : option Z)
    (s : state cpp_class) :
  fast_inner_ball_impl = None ->
  mmcs_args_fit (snd (shape2 (_A (self s)))) (default 1000 ess)
                (default 2 num_threads) = true ->
  let run := fast_mmcs fuel ess psrf_check parallelism num_threads s in
  let d := Z.of_nat (snd (shape2 (_A (self s)))) in
  let e := default 1000 ess in
  let p := Z.b2z (default true psrf_check) in
  let q := Z.b2z (default false parallelism) in
  let t := default 2 num_threads in
  fst run = Raise (NameError "fast_inner_ball") /\
  new_events s (snd run) = [Call_mmcs_initialize d e p q t] /\
  polytope_cpp (self (snd run)) =
    cpp_mmcs_initialize (polytope_cpp (self s)) d e p q t /\
  length (heap (env (snd run))) = (length (heap (env s)) + 4)%nat.
Proof.
  intros Hnone Hfit run. cbv zeta. subst run.
  rewrite fast_mmcs_with. unfold mmcs_with. run_M.
  destruct (shape2 (_A (self s))) as [m n]. simpl in Hfit. simpl snd.
  rewrite np_zeros2_run by lia. rewrite np_zeros1_run by lia.
  rewrite np_zeros2_run by lia. rewrite np_zeros1_run by lia.
  rewrite Hfit.
  unfold call_mmcs_initialize. run_M.
  rewrite fast_inner_ball_unbound by exact Hnone. simpl.
  split; [reflexivity|]. split; [now apply new_events_app|].
  split; [reflexivity|]. rewrite !length_app. simpl. lia.
Qed.

(** X13.  A driver called with an [ess] or a [num_threads] outside the
    range of a C [int] raises [OverflowError] when the integer is
    converted: after its four arrays are allocated, and before the native
    object is entered or the inner-ball supplier called. *)
Theorem mmcs_integer_arguments_out_of_range (fast : bool) (fuel : nat)
    (ess : option Z) (psrf_check parallelism : option bool)
    (num_threads : option Z) (s : state cpp_class) :
  c_int_fits (default 1000 ess) && c_int_fits (default 2 num_threads)
    = false ->
  let run :=
    if fast then fast_mmcs fuel ess psrf_check parallelism num_threads s
    else slow_mmcs fuel ess psrf_check parallelism num_threads s in
  fst run = Raise OverflowError /\
  new_events s (snd run) = [] /\
  self (snd run) = self s /\
  length (heap (env (snd run))) = (length (heap (env s)) + 4)%nat.
Proof.
  intros Hfit run. subst run. rewrite mmcs_of_flag.
  destruct (mmcs_with_overflow (inner_ball_of fast) fuel ess psrf_check
              parallelism num_threads s)
    as (Hout & Hself & Htr & _ & zs & Hheap & Hlen).
  { unfold mmcs_args_fit. apply andb_false_iff in Hfit.
    destruct Hfit as [->| ->]; [reflexivity|apply andb_false_r]. }
  split; [exact Hout|]. split; [now apply new_events_same_trace|].
  split; [exact Hself|]. rewrite Hheap, length_app, Hlen. reflexivity.
Qed.

End Outcomes.

(** ** Slow mode and the optional supplier *)

Section SlowMode.
Context {cpp_class : HPolytopeCPP_class}.

(** X4.  Nothing in slow mode depends on whether [fast_inner_ball] is
    bound: between two environments with the same [slow_inner_ball],
    [slow_mmcs], [generate_samples] with [fast_mode] false and [rounding]
    with [fast_mode] false or omitted do the same from every state. *)
Theorem slow_mode_ignores_fast_supplier (ib1 ib2 : InnerBall)
    (fuel : nat) (ess : option Z) (psrf_check parallelism : option bool)
    (num_threads : option Z) (method : string)
    (number_of_points number_of_points_to_burn walk_len : Z)
    (rounding_method : option string) (s : state cpp_class) :
  @slow_inner_ball_impl ib1 = @slow_inner_ball_impl ib2 ->
  slow_mmcs (inner_ball := ib1) fuel ess psrf_check parallelism num_threads s
    = slow_mmcs (inner_ball := ib2) fuel ess psrf_check parallelism
                num_threads s /\
  generate_samples (inner_ball := ib1) method number_of_points
                   number_of_points_to_burn walk_len false s
    = generate_samples (inner_ball := ib2) method number_of_points
                       number_of_points_to_burn walk_len false s /\
  rounding (inner_ball := ib1) rounding_method (Some false) s
    = rounding (inner_ball := ib2) rounding_method (Some false) s /\
  rounding (inner_ball := ib1) rounding_method None s
    = rounding (inner_ball := ib2) rounding_method None s.
Proof.
  destruct ib1 as [f g1], ib2 as [f2 g2]. simpl. intros <-.
  repeat split.
Qed.

End SlowMode.

(** ** The arrays the operations return *)

Section Results.
Context {cpp_class : HPolytopeCPP_class} {inner_ball : InnerBall}.

Ltac run_M :=
  unfold mbind, M_bind, bind, mret, M_ret, ret, raise, out_of_fuel, log,
    peek, poke, alloc, get_self, put_cpp in *.

(** A native write changes no array's size. *)
Lemma alter_overwrite_sizes (d : buffer) (l j : nat) (h : list buffer) :
  length <$> (alter (fun old => overwrite old d) l h !! j)
  = length <$> (h !! j).
Proof.
  destruct (decide (l = j)) as [->|Hne].
  - rewrite list_lookup_alter_eq. rewrite <- option_fmap_compose.
    apply option_fmap_ext. intros old. simpl. apply overwrite_length.
  - now rewrite list_lookup_alter_ne.
Qed.

Lemma lookup_snoc_sizes (h : list buffer) (x : buffer) (j : nat) :
  j = length h -> length <$> ((h ++ [x]) !! j) = Some (length x).
Proof.
  intros ->. rewrite lookup_app_r by apply Nat.le_refl.
  now rewrite Nat.sub_diag.
Qed.

Lemma lookup_app_sizes (h ext : list buffer) (j : nat) :
  (j < length h)%nat ->
  length <$> ((h ++ ext) !! j) = length <$> (h !! j).
Proof. intros Hj. now rewrite lookup_app_l. Qed.

(** X5.  A [rounding] call that returns hands out five arrays it has just
    allocated, at five distinct addresses past every array that existed:
    the new [A] of shape [(n_hyperplanes, n_variables)], the new [b] of
    length [n_hyperplanes], [T] of shape [(n_variables, n_variables)] and
    the shift of length [n_variables], each holding as many doubles as its
    shape says, and the 0-dimensional array that boxes the round value,
    holding one double; the wrapper allocates nothing else. *)
Theorem rounding_returns_fresh_arrays (rounding_method : option string)
    (fast_mode : option bool) (s : state cpp_class) :
  supplier_bound (default false fast_mode) = true ->
  is_Some (rounding_method_code
             (default "john_position"%string rounding_method)) ->
  let m := fst (shape2 (_A (self s))) in
  let n := snd (shape2 (_A (self s))) in
  let L := length (heap (env s)) in
  exists (s' : state cpp_class),
    rounding rounding_method fast_mode s =
      (Return ({| base2 := L; shape2 := (m, n) |},
               {| base1 := L + 1; shape1 := m |},
               {| base2 := L + 2; shape2 := (n, n) |},
               {| base1 := L + 3; shape1 := n |},
               {| base0 := L + 4 |}), s') /\
    length (heap (env s')) = (L + 5)%nat /\
    length <$> (heap (env s') !! L) = Some (m * n)%nat /\
    length <$> (heap (env s') !! (L + 1)%nat) = Some m /\
    length <$> (heap (env s') !! (L + 2)%nat) = Some (n * n)%nat /\
    length <$> (heap (env s') !! (L + 3)%nat) = Some n /\
    length <$> (heap (env s') !! (L + 4)%nat) = Some 1%nat.
Proof.
  intros Hb [code Hcode] m n L.
  destruct (supplier_bound_impl _ Hb) as [f Hf].
  unfold rounding, np_asarray_scalar. run_M.
  rewrite np_zeros2_run by lia. rewrite np_zeros1_run by lia.
  rewrite np_zeros2_run by lia. rewrite np_zeros1_run by lia.
  rewrite (inner_ball_run _ f) by exact Hf. cbv zeta.
  match goal with
  | |- context [add_event (Call_inner_ball _ ?A' ?b' _ _) ?s0] =>
      set (A1 := A'); set (b1 := b'); set (s1 := s0)
  end.
  destruct (f A1 b1) as [c r]. simpl fst. simpl snd.
  rewrite Hcode.
  unfold call_apply_rounding. run_M.
  destruct (cpp_apply_rounding _ _ _ _ _ _ _ _)
    as [[[[[A2 b2] T2] shift2] round_value] cpp].
  assert (Hlen : forall (h : list buffer) (x : buffer),
             length (h ++ [x]) = S (length h))
    by (intros; rewrite length_app; simpl; lia).
  eexists. split.
  - simpl. rewrite !Nat2Z.id. rewrite !length_alter, !Hlen. fold L m n.
    replace (S L) with (L + 1)%nat by lia.
    replace (S (L + 1)) with (L + 2)%nat by lia.
    replace (S (L + 2)) with (L + 3)%nat by lia.
    replace (S (L + 3)) with (L + 4)%nat by lia.
    reflexivity.
  - simpl. rewrite !Hlen, !length_alter, !Hlen. fold L.
    split; [lia|].
    repeat split.
    5:{ rewrite lookup_snoc_sizes;
          [reflexivity|rewrite !length_alter, !Hlen; fold L; lia]. }
    all: rewrite lookup_app_sizes
           by (rewrite !length_alter, !Hlen; fold L; lia);
      rewrite !alter_overwrite_sizes;
      repeat (rewrite lookup_app_sizes by (rewrite ?Hlen; lia));
      rewrite lookup_snoc_sizes by (rewrite ?Hlen; lia);
      rewrite length_replicate, ?Z2Nat.inj_mul, ?Nat2Z.id by lia;
      reflexivity.
Qed.

(** Computations that allocate nothing. *)
Lemma loop_allocates_nothing (fast : bool) (fuel : nat) (new_A : memview2)
    (new_b : memview1) (c : buffer) (r : float) (s : state cpp_class) :
  length (heap (env (snd (mmcs_loop_with (inner_ball_of fast) fuel new_A
                                         new_b c r s))))
  = length (heap (env s)).
Proof.
  revert c r s. induction fuel as [|fuel IH]; intros c r s; [reflexivity|].
  simpl. unfold mbind, M_bind, bind.
  unfold call_mmcs_step at 1. run_M.
  destruct (cpp_mmcs_step _ _ _) as [[check N] cpp].
  destruct (converged check); [reflexivity|].
  unfold call_get_polytope_as_matrices at 1. run_M.
  destruct (cpp_get_polytope_as_matrices _ _ _) as [[A1 b1] cpp1].
  match goal with
  | |- context [inner_ball_of fast new_A new_b ?s0] =>
      assert (Hib : length (heap (env (snd (inner_ball_of fast new_A new_b
                                              s0))))
                    = length (heap (env s0)));
      [|destruct (inner_ball_of fast new_A new_b s0) as [[[c1 r1]| |] s3]]
  end.
  - unfold inner_ball_of, fast_inner_ball, slow_inner_ball, read2, read1.
    run_M. destruct fast; [destruct fast_inner_ball_impl as [g|]|];
      try reflexivity;
      match goal with
      | |- context [let '(_, _) := ?p in _] => destruct p
      end; reflexivity.
  - rewrite IH. simpl in Hib. rewrite Hib. simpl.
    now rewrite !length_alter.
  - simpl in *. rewrite Hib. simpl. now rewrite !length_alter.
  - simpl in *. rewrite Hib. simpl. now rewrite !length_alter.
Qed.

(** The outcome and the events of a driver, by how its loop ends. *)
Lemma mmcs_with_run (fast : bool) (f : inner_ball_fn) (fuel : nat)
    (ess : option Z) (psrf_check parallelism : option bool)
    (num_threads : option Z) (s : state cpp_class) :
  supplier_impl fast = Some f ->
  valid_object s ->
  mmcs_args_fit (snd (shape2 (_A (self s)))) (default 1000 ess)
                (default 2 num_threads) = true ->
  let run := mmcs_with (inner_ball_of fast) fuel ess psrf_check parallelism
                       num_threads s in
  let A0 := deref2 (heap (env s)) (_A (self s)) in
  let b0 := deref1 (heap (env s)) (_b (self s)) in
  let m := fst (shape2 (_A (self s))) in
  let n := snd (shape2 (_A (self s))) in
  let L := length (heap (env s)) in
  let head :=
    [Call_mmcs_initialize (Z.of_nat n) (default 1000 ess)
       (Z.b2z (default true psrf_check)) (Z.b2z (default false parallelism))
       (default 2 num_threads);
     Call_inner_ball fast A0 b0 (fst (f A0 b0)) (snd (f A0 b0))] in
  exists evs res,
    phase_trace fast f (m, n) m fuel (fst (f A0 b0)) (snd (f A0 b0)) evs
                res /\
    match res with
    | None =>
        fst run = OutOfFuel /\ new_events s (snd run) = head ++ evs
    | Some N =>
        if (N <? 0)%Z then
          fst run = Raise negative_dimensions /\
          new_events s (snd run) = head ++ evs
        else
          fst run =
            Return ({| base2 := L; shape2 := (m, n) |},
                    {| base1 := L + 1; shape1 := m |},
                    {| base2 := L + 2; shape2 := (n, n) |},
                    {| base1 := L + 3; shape1 := n |},
                    {| base2 := L + 4; shape2 := (n, Z.to_nat N) |}) /\
          exists A1 b1,
            new_events s (snd run) =
              head ++ evs ++ [Call_get_mmcs_samples;
                              Call_get_polytope_as_matrices A1 b1]
    end.
Proof.
  intros Hf [HvA Hvb] Hfit run A0 b0 m n L head. subst run head m n.
  unfold mmcs_with. run_M.
  destruct (shape2 (_A (self s))) as [m n] eqn:Esh. simpl fst. simpl snd.
  simpl in Hfit.
  rewrite np_zeros2_run by lia. rewrite np_zeros1_run by lia.
  rewrite np_zeros2_run by lia. rewrite np_zeros1_run by lia.
  rewrite Hfit.
  unfold call_mmcs_initialize. run_M.
  rewrite (inner_ball_of_run fast f) by exact Hf. cbv zeta.
  assert (Hlen : forall (h : list buffer) (x : buffer),
             length (h ++ [x]) = S (length h))
    by (intros; rewrite length_app; simpl; lia).
  match goal with
  | |- context [add_event (Call_inner_ball _ ?A' ?b' _ _) ?s0] =>
      replace A' with A0; [replace b' with b0|]; [set (s5 := s0)|..]
  end.
  2:{ subst b0. unfold deref1. simpl.
      repeat (rewrite lookup_app_l
                by (first [assumption|rewrite ?Hlen; lia])).
      reflexivity. }
  2:{ subst A0. unfold deref2. simpl.
      repeat (rewrite lookup_app_l
                by (first [assumption|rewrite ?Hlen; lia])).
      reflexivity. }
  destruct (f A0 b0) as [c0 r0] eqn:Ef. simpl fst. simpl snd.
  set (s6 := add_event _ s5).
  match goal with
  | |- context [mmcs_loop_with _ fuel ?nA ?nb c0 r0 s6] =>
      pose proof (loop_allocates_nothing fast fuel nA nb c0 r0 s6) as Hsize;
      destruct (mmcs_loop_with_trace fast f fuel nA nb c0 r0 s6 Hf)
        as (evs & res & s7 & Hloop & Htr & Hph)
  end.
  { simpl. rewrite Hlen. lia. }
  rewrite Hloop in Hsize. simpl in Hsize. rewrite !Hlen in Hsize.
  simpl shape2 in Hph. simpl shape1 in Hph. rewrite !Nat2Z.id in Hph.
  rewrite Hloop. clear Hloop.
  assert (Htr6 : trace (env s6) = trace (env s) ++
            [Call_mmcs_initialize (Z.of_nat n) (default 1000 ess)
               (Z.b2z (default true psrf_check))
               (Z.b2z (default false parallelism)) (default 2 num_threads);
             Call_inner_ball fast A0 b0 c0 r0]).
  { subst s6 s5. simpl. now rewrite <- app_assoc. }
  exists evs, res. split; [exact Hph|].
  destruct res as [N|].
  - destruct (Z.ltb_spec N 0) as [Hneg|Hpos].
    + rewrite np_zeros2_negative by lia. simpl snd. simpl fst.
      split; [reflexivity|].
      apply new_events_app. rewrite Htr, Htr6, <- app_assoc. reflexivity.
    + rewrite np_zeros2_run by lia.
      match goal with
      | |- context [call_get_mmcs_samples ?T ?sh ?sm ?s0] =>
          destruct (call_get_mmcs_samples_run T sh sm s0)
            as (s8 & -> & Htr8)
      end.
      match goal with
      | |- context [call_get_polytope_as_matrices ?nA ?nb s8] =>
          destruct (call_get_polytope_as_matrices_run nA nb s8)
            as (s9 & -> & Htr9)
      end.
      { simpl. rewrite Hlen. lia. }
      simpl snd. simpl fst. split.
      * rewrite !Nat2Z.id, !Hlen. subst L.
        rewrite Hsize. repeat f_equal; lia.
      * eexists _, _. apply new_events_app. rewrite Htr9, Htr8. simpl.
        rewrite Htr, Htr6, <- !app_assoc. reflexivity.
  - simpl snd. simpl fst. split; [reflexivity|].
    apply new_events_app. rewrite Htr, Htr6, <- app_assoc. reflexivity.
Qed.

(** X6.  What a driver (called with [ess] and [num_threads] within the
    range of a C [int]) answers when its loop ends: if the converged
    [mmcs_step] reported a negative sample count, [ValueError] (from
    [np.zeros], after all the phases have run); otherwise five arrays the
    call allocated itself, at five consecutive addresses past every array
    that existed, the samples being of shape [(n_variables, N)] for the
    count [N] that last [mmcs_step] reported: one column per sample. *)
Theorem mmcs_returns_fresh_arrays (fast : bool) (f : inner_ball_fn)
    (fuel : nat) (ess : option Z) (psrf_check parallelism : option bool)
    (num_threads : option Z) (s : state cpp_class) :
  supplier_impl fast = Some f ->
  valid_object s ->
  mmcs_args_fit (snd (shape2 (_A (self s)))) (default 1000 ess)
                (default 2 num_threads) = true ->
  let run :=
    if fast then fast_mmcs fuel ess psrf_check parallelism num_threads s
    else slow_mmcs fuel ess psrf_check parallelism num_threads s in
  let m := fst (shape2 (_A (self s))) in
  let n := snd (shape2 (_A (self s))) in
  let L := length (heap (env s)) in
  fst run = OutOfFuel \/
  exists c r status N,
    last (List.filter is_mmcs_step (new_events s (snd run)))
      = Some (Call_mmcs_step c r status N) /\
    converged status = true /\
    if (N <? 0)%Z then fst run = Raise negative_dimensions
    else
      fst run =
        Return ({| base2 := L; shape2 := (m, n) |},
                {| base1 := L + 1; shape1 := m |},
                {| base2 := L + 2; shape2 := (n, n) |},
                {| base1 := L + 3; shape1 := n |},
                {| base2 := L + 4; shape2 := (n, Z.to_nat N) |}).
Proof.
  intros Hf Hv Hfit run m n L. subst run. rewrite mmcs_of_flag.
  destruct (mmcs_with_run fast f fuel ess psrf_check parallelism
              num_threads s Hf Hv Hfit) as (evs & res & Hph & Hres).
  destruct res as [N|]; [right|left; apply Hres].
  destruct (proj1 (phase_trace_exit _ _ _ _ _ _ _ _ _ Hph N) eq_refl)
    as (c & r & status & Hlast & Hconv).
  exists c, r, status, N.
  assert (Hsteps : forall tail,
    existsb is_mmcs_step tail = false ->
    last (List.filter is_mmcs_step
            (Call_mmcs_initialize (Z.of_nat n) (default 1000 ess)
               (Z.b2z (default true psrf_check))
               (Z.b2z (default false parallelism)) (default 2 num_threads)
             :: Call_inner_ball fast
                  (deref2 (heap (env s)) (_A (self s)))
                  (deref1 (heap (env s)) (_b (self s)))
                  (fst (f (deref2 (heap (env s)) (_A (self s)))
                          (deref1 (heap (env s)) (_b (self s)))))
                  (snd (f (deref2 (heap (env s)) (_A (self s)))
                          (deref1 (heap (env s)) (_b (self s)))))
             :: evs ++ tail))
    = Some (Call_mmcs_step c r status N)).
  { intros tail Htail. simpl. rewrite List.filter_app.
    assert (Hnil : List.filter is_mmcs_step tail = []).
    { clear -Htail. induction tail as [|e tail IH]; [reflexivity|].
      simpl in *. apply orb_false_iff in Htail. destruct Htail as [-> Ht].
      now apply IH. }
    rewrite Hnil, app_nil_r.
    apply last_Some in Hlast. destruct Hlast as [pre ->].
    rewrite List.filter_app. simpl. now rewrite last_snoc. }
  split; [|split; [exact Hconv|]].
  - destruct (Z.ltb_spec N 0) as [Hneg|Hpos].
    + destruct Hres as [_ ->]. simpl app.
      rewrite <- (app_nil_r evs). now apply Hsteps.
    + destruct Hres as [_ (A1 & b1 & ->)]. simpl app. now apply Hsteps.
  - destruct (N <? 0)%Z; apply Hres.
Qed.

End Results.

(** ** How long the drivers run *)

Section Phases.
Context {cpp_class : HPolytopeCPP_class} {inner_ball : InnerBall}.

Ltac run_M :=
  unfold mbind, M_bind, bind, mret, M_ret, ret, raise, out_of_fuel, log,
    peek, poke, alloc, get_self, put_cpp in *.

Lemma count_events_app (p : event -> bool) (l1 l2 : list event) :
  count_events p (l1 ++ l2) = (count_events p l1 + count_events p l2)%nat.
Proof. unfold count_events. now rewrite List.filter_app, length_app. Qed.

(** In a phase loop: one fetch of the polytope per inner ball, one more
    [mmcs_step] than inner balls if the loop exits, as many otherwise. *)
Lemma phase_trace_counts fast f shA shb fuel c r evs res :
  phase_trace fast f shA shb fuel c r evs res ->
  count_events is_get_polytope evs = count_events is_inner_ball_call evs /\
  count_events is_mmcs_step evs =
    (count_events is_inner_ball_call evs
     + match res with Some _ => 1 | None => 0 end)%nat /\
  (count_events is_mmcs_step evs <= fuel)%nat.
Proof.
  induction 1 as [c r|fuel c r status N Hc
                 |fuel c r status N A1 b1 c1 r1 evs res Hc Hf Hph IH].
  - unfold count_events. repeat split; simpl; lia.
  - unfold count_events. repeat split; simpl; lia.
  - destruct IH as (IH1 & IH2 & IH3). unfold count_events in *. simpl.
    repeat split; lia.
Qed.

(** X7.  With an inner-ball supplier bound, a run of [fast_mmcs] or
    [slow_mmcs] enters [mmcs_step] at most as many times as it is allowed
    phases; a run that returns has made exactly as many inner-ball
    computations and as many [get_polytope_as_matrices] calls as
    [mmcs_step] calls (at least one); a run cut short has run every phase
    it was allowed, and one more inner ball. *)
Theorem mmcs_calls_per_phase (fast : bool) (f : inner_ball_fn)
    (fuel : nat) (ess : option Z) (psrf_check parallelism : option bool)
    (num_threads : option Z) (s : state cpp_class) :
  supplier_impl fast = Some f ->
  valid_object s ->
  let run :=
    if fast then fast_mmcs fuel ess psrf_check parallelism num_threads s
    else slow_mmcs fuel ess psrf_check parallelism num_threads s in
  let steps := count_events is_mmcs_step (new_events s (snd run)) in
  let balls := count_events is_inner_ball_call (new_events s (snd run)) in
  let fetches := count_events is_get_polytope (new_events s (snd run)) in
  (steps <= fuel)%nat /\
  ((exists x, fst run = Return x) ->
     (1 <= steps)%nat /\ balls = steps /\ fetches = steps) /\
  (fst run = OutOfFuel ->
     steps = fuel /\ balls = (fuel + 1)%nat /\ fetches = fuel).
Proof.
  intros Hf Hv run. subst run. rewrite mmcs_of_flag. cbv zeta.
  destruct (mmcs_args_fit (snd (shape2 (_A (self s)))) (default 1000 ess)
                          (default 2 num_threads)) eqn:Hfit.
  2:{ destruct (mmcs_with_overflow (inner_ball_of fast) fuel ess psrf_check
                  parallelism num_threads s Hfit) as (Hout & _ & Htr & _).
      rewrite (new_events_same_trace _ _ Htr), Hout.
      unfold count_events. simpl.
      split; [lia|]. split; [intros [x Hx]|intros Hx]; discriminate. }
  destruct (mmcs_with_run fast f fuel ess psrf_check parallelism
              num_threads s Hf Hv Hfit) as (evs & res & Hph & Hres).
  destruct (phase_trace_counts _ _ _ _ _ _ _ _ _ Hph) as (Hg & Hs & Hle).
  unfold count_events in *.
  assert (Hfuel : res = None -> length (List.filter is_mmcs_step evs) = fuel).
  { intros ->. eapply phase_trace_fuel; exact Hph. }
  destruct res as [N|]; [destruct (N <? 0)%Z|];
    [destruct Hres as [Hout ->]
    |destruct Hres as [Hout (A1 & b1 & ->)]
    |destruct Hres as [Hout ->]];
    rewrite Hout; simpl; rewrite ?List.filter_app, ?length_app; simpl;
    (split; [lia|]); (split; [intros [x Hx]|intros Hx]);
    try discriminate Hx; try specialize (Hfuel eq_refl);
    repeat split; lia.
Qed.

Lemma call_get_polytope_as_matrices_returns new_A new_b
    (s : state cpp_class) :
  exists s', call_get_polytope_as_matrices new_A new_b s = (Return tt, s').
Proof.
  unfold call_get_polytope_as_matrices. run_M.
  destruct (cpp_get_polytope_as_matrices _ _ _) as [[A1 b1] cpp]. eauto.
Qed.

Lemma loop_never_exits (fast : bool) (f : inner_ball_fn) (fuel : nat)
    (new_A : memview2) (new_b : memview1) (c : buffer) (r : float)
    (s : state cpp_class) :
  (forall cpp p q, converged (fst (fst (cpp_mmcs_step cpp p q))) = false) ->
  supplier_impl fast = Some f ->
  fst (mmcs_loop_with (inner_ball_of fast) fuel new_A new_b c r s)
    = OutOfFuel.
Proof.
  intros Hnever Hf. revert c r s.
  induction fuel as [|fuel IH]; intros c r s; [reflexivity|].
  simpl. unfold mbind, M_bind, bind.
  unfold call_mmcs_step at 1. run_M.
  pose proof (Hnever (polytope_cpp (self s)) c r) as Hc.
  destruct (cpp_mmcs_step _ _ _) as [[check N] cpp]. simpl in Hc.
  rewrite Hc.
  match goal with
  | |- context [call_get_polytope_as_matrices new_A new_b ?s0] =>
      destruct (call_get_polytope_as_matrices_returns new_A new_b s0)
        as (s2 & ->)
  end.
  pose proof (inner_ball_of_run fast f new_A new_b s2 Hf) as Hib.
  cbv zeta in Hib. rewrite Hib. clear Hib.
  destruct (f _ _) as [c1 r1]. apply IH.
Qed.

(** X8.  The drivers have no cap on the number of phases: if the native
    [mmcs_step] never answers a status strictly between 1 and 2 (a NaN
    status, for one), a run of [fast_mmcs] or [slow_mmcs] (called with
    [ess] and [num_threads] within the range of a C [int]) does not end,
    however many phases it is followed for, and every one of these phases
    enters [mmcs_step]. *)
Theorem mmcs_has_no_phase_cap (fast : bool) (f : inner_ball_fn)
    (fuel : nat) (ess : option Z) (psrf_check parallelism : option bool)
    (num_threads : option Z) (s : state cpp_class) :
  (forall cpp p q, converged (fst (fst (cpp_mmcs_step cpp p q))) = false) ->
  supplier_impl fast = Some f ->
  valid_object s ->
  mmcs_args_fit (snd (shape2 (_A (self s)))) (default 1000 ess)
                (default 2 num_threads) = true ->
  let run :=
    if fast then fast_mmcs fuel ess psrf_check parallelism num_threads s
    else slow_mmcs fuel ess psrf_check parallelism num_threads s in
  fst run = OutOfFuel /\
  count_events is_mmcs_step (new_events s (snd run)) = fuel.
Proof.
  intros Hnever Hf Hv Hfit run. subst run. rewrite mmcs_of_flag.
  assert (Hout : fst (mmcs_with (inner_ball_of fast) fuel ess psrf_check
                                parallelism num_threads s) = OutOfFuel).
  { unfold mmcs_with. run_M.
    pose proof Hfit as Hfit'.
    destruct (shape2 (_A (self s))) as [m n]. simpl in Hfit'.
    rewrite np_zeros2_run by lia. rewrite np_zeros1_run by lia.
    rewrite np_zeros2_run by lia. rewrite np_zeros1_run by lia.
    rewrite Hfit'.
    unfold call_mmcs_initialize. run_M.
    match goal with
    | |- context [inner_ball_of fast ?vA ?vb ?s0] =>
        pose proof (inner_ball_of_run fast f vA vb s0 Hf) as Hib;
        cbv zeta in Hib; rewrite Hib; clear Hib
    end.
    destruct (f _ _) as [c0 r0].
    match goal with
    | |- context [mmcs_loop_with _ fuel ?nA ?nb c0 r0 ?s0] =>
        pose proof (loop_never_exits fast f fuel nA nb c0 r0 s0 Hnever Hf)
          as Hloop;
        destruct (mmcs_loop_with _ fuel nA nb c0 r0 s0) as [[N| |] s7]
    end; simpl in Hloop; try discriminate. reflexivity. }
  split; [exact Hout|].
  destruct (mmcs_with_run fast f fuel ess psrf_check parallelism
              num_threads s Hf Hv Hfit) as (evs & res & Hph & Hres).
  destruct res as [N|].
  - destruct (N <? 0)%Z; destruct Hres as [Hres _]; rewrite Hout in Hres;
      discriminate.
  - destruct Hres as [_ ->]. unfold count_events.
    rewrite List.filter_app. simpl.
    eapply phase_trace_fuel; exact Hph.
Qed.

End Phases.

(** ** The method vocabularies *)

(** X10.  The module's lists and the operations' tests do not name the
    same methods.  Of the list [rounding_methods], [rounding] accepts
    min_ellipsoid only (svd and max_ellipsoid are listed and refused,
    john_position and isotropic_position accepted and not listed); and no
    walk name [compute_volume] accepts (uniform_ball, CDHR, ...) is a
    method name [generate_samples] accepts (cdhr, ...), nor the converse:
    the names are matched exactly, case included. *)
Theorem method_vocabularies_differ :
  (forall m : string,
     py_in (encode m) rounding_methods = true /\
     is_Some (rounding_method_code m) <-> m = "min_ellipsoid"%string) /\
  (forall m : string,
     py_in (encode m) walk_methods = true ->
     sampling_method_code m = None) /\
  (forall m : string,
     is_Some (sampling_method_code m) ->
     py_in (encode m) walk_methods = false).
Proof.
  assert (Hwalk : forall m : string,
            py_in (encode m) walk_methods = true ->
            sampling_method_code m = None).
  { intros m H. rewrite py_in_walk_methods in H.
    apply bool_decide_eq_true in H. unfold walk_allowed in H.
    rewrite !elem_of_cons, elem_of_nil in H.
    repeat destruct H as [H|H]; try contradiction; subst m; reflexivity. }
  split; [|split; [exact Hwalk|]].
  - intros m. split.
    + intros [Hin Hcode]. unfold py_in in Hin.
      apply bool_decide_eq_true in Hin.
      change rounding_methods with
        (encode <$> ["min_ellipsoid"; "svd"; "max_ellipsoid"]%string) in Hin.
      apply list_elem_of_fmap_inj in Hin; [|apply _].
      rewrite !elem_of_cons, elem_of_nil in Hin.
      repeat destruct Hin as [Hin|Hin]; try contradiction; subst m;
        [reflexivity|destruct Hcode; discriminate..].
    + intros ->. split; [reflexivity|]. eexists. reflexivity.
  - intros m [code Hcode].
    destruct (py_in (encode m) walk_methods) eqn:E; [|reflexivity].
    apply Hwalk in E. congruence.
Qed.

(** ** Arrays shared with the caller *)

Section Sharing.
Context {cpp_class : HPolytopeCPP_class} {inner_ball : InnerBall}.

Ltac run_M :=
  unfold mbind, M_bind, bind, mret, M_ret, ret, raise, out_of_fuel, log,
    peek, poke, alloc, get_self, put_cpp in *.


(** X12.  No operation writes into an array that existed before the call:
    after any series of [compute_volume], [generate_samples], [rounding],
    [fast_mmcs] and [slow_mmcs] calls, every such array (the arrays
    returned by earlier calls among them) holds what it held, and no array
    has been removed. *)
Theorem operations_leave_existing_arrays (md : module_state)
    (calls : list call) (s : state cpp_class) (l : nat) :
  (l < length (heap (env s)))%nat ->
  heap (env (perform_all md calls s)) !! l = heap (env s) !! l /\
  (length (heap (env s)) <= length (heap (env (perform_all md calls s))))%nat.
Proof.
  intros Hl.
  destruct (stored_kept_perform_all s md calls s (stored_kept_refl s))
    as (_ & _ & Hlen & Hold).
  split; [now apply Hold|exact Hlen].
Qed.

End Sharing.

(** ** Further runs on the scripted objects *)

Section MoreRuns.
Import Script.

(** [fast_mmcs] on the square, [gurobipy] missing. *)
Lemma fast_mmcs_without_gurobi_witness :
  fst (fast_mmcs (inner_ball := without_gurobi) 5 None None None None
                 (start [1.5]%float))
    = Raise (NameError "fast_inner_ball") /\
  new_events (start [1.5]%float)
    (snd (fast_mmcs (inner_ball := without_gurobi) 5 None None None None
                    (start [1.5]%float)))
    = [Call_mmcs_initialize 2 1000 1 0 2].
Proof.
  destruct (fast_mmcs_without_gurobi (inner_ball := without_gurobi) 5 None
              None None None (start [1.5]%float) eq_refl eq_refl)
    as (Hout & Hev & _).
  split; [exact Hout|exact Hev].
Defined.

(** [generate_samples] on the square with a walk length past the range of
    a C [int]. *)
Lemma generate_samples_outcome_witness :
  fst (generate_samples (inner_ball := without_gurobi) "cdhr" 3 0
                        2147483648 false (start []))
    = Raise OverflowError.
Proof.
  destruct (generate_samples_outcome (inner_ball := without_gurobi) "cdhr"
              3 0 2147483648 false (start []) eq_refl)
    as (_ & _ & _ & Hover & _).
  apply Hover. repeat split; [lia|]. eexists. reflexivity.
Defined.

(** [slow_mmcs] on the square with [ess] past the range of a C [int]. *)
Lemma mmcs_integer_arguments_out_of_range_witness :
  fst (slow_mmcs (inner_ball := without_gurobi) 5 (Some 2147483648) None
                 None None (start [1.5]%float))
    = Raise OverflowError /\
  new_events (start [1.5]%float)
    (snd (slow_mmcs (inner_ball := without_gurobi) 5 (Some 2147483648) None
                    None None (start [1.5]%float))) = [].
Proof.
  destruct (mmcs_integer_arguments_out_of_range
              (inner_ball := without_gurobi) false 5 (Some 2147483648) None
              None None (start [1.5]%float) eq_refl)
    as (Hout & Hev & _).
  split; [exact Hout|exact Hev].
Defined.

(** [slow_mmcs] on the square, with and without [gurobipy]. *)
Lemma slow_mode_ignores_fast_supplier_witness :
  slow_mmcs (inner_ball := with_gurobi) 5 None None None None
            (start [0.5; 1.5]%float)
  = slow_mmcs (inner_ball := without_gurobi) 5 None None None None
              (start [0.5; 1.5]%float).
Proof.
  apply (slow_mode_ignores_fast_supplier with_gurobi without_gurobi 5 None
           None None None "cdhr" 3 0 1 None (start [0.5; 1.5]%float)
           eq_refl).
Defined.

(** [rounding()] on the square. *)
Lemma rounding_returns_fresh_arrays_witness :
  exists s',
    rounding (inner_ball := without_gurobi) None None (start [])
    = (Return ({| base2 := 2; shape2 := (4%nat, 2%nat) |},
               {| base1 := 3; shape1 := 4 |},
               {| base2 := 4; shape2 := (2%nat, 2%nat) |},
               {| base1 := 5; shape1 := 2 |},
               {| base0 := 6 |}), s') /\
    heap (env s') !! 6%nat = Some [1%float].
Proof.
  destruct (rounding_returns_fresh_arrays (inner_ball := without_gurobi)
              None None (start []))
    as (s' & Hrun & _).
  - reflexivity.
  - eexists. reflexivity.
  - exists s'. split; [exact Hrun|].
    replace s' with (snd (rounding (inner_ball := without_gurobi) None None
                            (start []))) by now rewrite Hrun.
    reflexivity.
Defined.

(** [slow_mmcs] on the square, converging at the second phase. *)
Lemma mmcs_returns_fresh_arrays_witness :
  let run := slow_mmcs (inner_ball := without_gurobi) 5 None None None None
                       (start [0.5; 1.5]%float) in
  fst run = OutOfFuel \/
  exists N : Z,
    if (N <? 0)%Z then fst run = Raise negative_dimensions
    else fst run =
           Return ({| base2 := 2; shape2 := (4%nat, 2%nat) |},
                   {| base1 := 3; shape1 := 4 |},
                   {| base2 := 4; shape2 := (2%nat, 2%nat) |},
                   {| base1 := 5; shape1 := 2 |},
                   {| base2 := 6; shape2 := (2%nat, Z.to_nat N) |}).
Proof.
  intros run.
  destruct (mmcs_returns_fresh_arrays (inner_ball := without_gurobi) false
              origin_ball 5 None None None None (start [0.5; 1.5]%float)
              eq_refl (start_valid _) eq_refl)
    as [Hcut|(c & r & status & N & _ & _ & Hres)].
  - left. exact Hcut.
  - right. exists N. exact Hres.
Defined.

Lemma mmcs_calls_per_phase_witness :
  (count_events is_mmcs_step
     (new_events (start [0.5; 1.5]%float)
        (snd (slow_mmcs (inner_ball := without_gurobi) 5 None None None
                        None (start [0.5; 1.5]%float)))) <= 5)%nat.
Proof.
  apply (mmcs_calls_per_phase (inner_ball := without_gurobi) false
           origin_ball 5 None None None None (start [0.5; 1.5]%float)
           eq_refl (start_valid _)).
Defined.

Lemma stalled_valid (status : float) : valid_object (Stalled.start status).
Proof. split; simpl; lia. Qed.

(** A native object that answers NaN for ever, followed for seven
    phases. *)
Lemma mmcs_has_no_phase_cap_witness :
  fst (slow_mmcs (inner_ball := without_gurobi) 7 None None None None
                 (Stalled.start nan)) = OutOfFuel /\
  count_events is_mmcs_step
    (new_events (Stalled.start nan)
       (snd (slow_mmcs (inner_ball := without_gurobi) 7 None None None None
                       (Stalled.start nan)))) = 7%nat.
Proof.
  apply (mmcs_has_no_phase_cap (cpp_class := Stalled.core nan)
           (inner_ball := without_gurobi) false origin_ball 7 None None
           None None (Stalled.start nan)).
  - intros cpp p q. reflexivity.
  - reflexivity.
  - apply stalled_valid.
  - reflexivity.
Defined.


(** The samples a first call returned (array 2) after three more
    operations. *)
Lemma operations_leave_existing_arrays_witness :
  let md := imported in
  let s1 := perform (inner_ball := without_gurobi) md
                    (Generate_samples "cdhr" 3 0 1 false) (start [1.5]%float)
  in
  heap (env (perform_all (inner_ball := without_gurobi) md
               [Rounding None None; Slow_mmcs 5 None None None None;
                Generate_samples "rdhr" 4 0 1 false] s1)) !! 2%nat
  = heap (env s1) !! 2%nat.
Proof.
  intros md s1.
  apply (operations_leave_existing_arrays (inner_ball := without_gurobi) md
           [Rounding None None; Slow_mmcs 5 None None None None;
            Generate_samples "rdhr" 4 0 1 false] s1 2).
  vm_compute. lia.
Defined.

End MoreRuns.
